(** * ellidri: a shallow embedding of the IRC server core

    Modes (src/src/modes.rs), channel records (src/src/channel.rs) and the
    shared network state (src/src/state/mod.rs, src/src/state/ircv3.rs). *)

From Stdlib Require Import String Ascii ZArith Lia.
From stdpp Require Import base gmap strings list.

Open Scope string_scope.

(** ** Results and replies *)

(** Rust's [Result<T, E>]. *)
Inductive result (T E : Type) : Type :=
| Ok (v : T)
| Err (e : E).
Arguments Ok {T E} v.
Arguments Err {T E} e.

(** The numeric replies used by [Channel::apply_mode_change]. *)
Inductive Reply : Type :=
| ERR_KEYSET
| ERR_USERNOTINCHANNEL.

(** ** modes.rs *)

Module Modes.

(** [modes::Error]. *)
Inductive Error : Type :=
| UnknownMode (c : ascii)
| MissingModeParam
| BadModeParam.

(** [ChannelModeChange<'a>]; [Cow<'a, str>] is a string. *)
Inductive ChannelModeChange : Type :=
| Anonymous (v : bool)
| InviteOnly (v : bool)
| Moderated (v : bool)
| NoPrivMsgFromOutside (v : bool)
| Quiet (v : bool)
| Private (v : bool)
| Secret (v : bool)
| TopicRestricted (v : bool)
| Key (v : bool) (k : string)
| UserLimit (l : option string)
| GetBans
| GetExceptions
| GetInvitations
| ChangeBan (v : bool) (p : string)
| ChangeException (v : bool) (p : string)
| ChangeInvitation (v : bool) (p : string)
| ChangeOperator (v : bool) (p : string)
| ChangeVoice (v : bool) (p : string).

(** [ChannelModeChange::symbol]. *)
Definition symbol (c : ChannelModeChange) : option ascii :=
  match c with
  | Anonymous _ => Some "a"%char
  | InviteOnly _ => Some "i"%char
  | Moderated _ => Some "m"%char
  | NoPrivMsgFromOutside _ => Some "n"%char
  | Quiet _ => Some "q"%char
  | Private _ => Some "p"%char
  | Secret _ => Some "s"%char
  | TopicRestricted _ => Some "t"%char
  | Key _ _ => Some "k"%char
  | UserLimit _ => Some "l"%char
  | ChangeBan _ _ => Some "b"%char
  | ChangeException _ _ => Some "e"%char
  | ChangeInvitation _ _ => Some "I"%char
  | ChangeOperator _ _ => Some "o"%char
  | ChangeVoice _ _ => Some "v"%char
  | _ => None
  end.

(** [SimpleQuery]: the remaining mode bytes and the latched sign. *)
Record SimpleQuery : Type := mkSimpleQuery {
  sq_modes : string;
  sq_value : bool;
}.

(** [SimpleQuery::next]: skip and latch every ['+'] / ['-'], then yield
    the first other byte with the current sign. *)
Fixpoint simple_next_aux (modes : string) (value : bool)
  : option (bool * ascii) * SimpleQuery :=
  match modes with
  | EmptyString => (None, mkSimpleQuery EmptyString value)
  | String c rest =>
      if Ascii.eqb c "+"%char then simple_next_aux rest true
      else if Ascii.eqb c "-"%char then simple_next_aux rest false
      else (Some (value, c), mkSimpleQuery rest value)
  end.

Definition simple_next (q : SimpleQuery) : option (bool * ascii) * SimpleQuery :=
  simple_next_aux (sq_modes q) (sq_value q).

(** [ChannelQuery]: the parameter iterator is the list of the parameters it
    has still to yield. *)
Record ChannelQuery : Type := mkChannelQuery {
  cq_inner : SimpleQuery;
  cq_params : list string;
}.

(** [ChannelQuery::new]: the sign starts as [true]. *)
Definition channel_query_new (modes : string) (params : list string) : ChannelQuery :=
  mkChannelQuery (mkSimpleQuery modes true) params.

(** [self.params.next()]. *)
Definition params_next (ps : list string) : option string * list string :=
  match ps with
  | [] => (None, [])
  | p :: ps' => (Some p, ps')
  end.

(** Decoding of one mode letter, the body of the [match mode] in
    [ChannelQuery::next]. *)
Definition decode_channel_mode (value : bool) (mode : ascii) (ps : list string)
  : result ChannelModeChange Error * list string :=
  if Ascii.eqb mode "a"%char then (Ok (Anonymous value), ps)
  else if Ascii.eqb mode "i"%char then (Ok (InviteOnly value), ps)
  else if Ascii.eqb mode "m"%char then (Ok (Moderated value), ps)
  else if Ascii.eqb mode "n"%char then (Ok (NoPrivMsgFromOutside value), ps)
  else if Ascii.eqb mode "q"%char then (Ok (Quiet value), ps)
  else if Ascii.eqb mode "p"%char then (Ok (Private value), ps)
  else if Ascii.eqb mode "t"%char then (Ok (TopicRestricted value), ps)
  else if Ascii.eqb mode "k"%char then
    match params_next ps with
    | (Some p, ps') => (Ok (Key value p), ps')
    | (None, ps') => (Err MissingModeParam, ps')
    end
  else if Ascii.eqb mode "l"%char then
    let '(p, ps') := params_next ps in (Ok (UserLimit p), ps')
  else if Ascii.eqb mode "b"%char then
    match params_next ps with
    | (Some p, ps') => (Ok (ChangeBan value p), ps')
    | (None, ps') => (Ok GetBans, ps')
    end
  else if Ascii.eqb mode "e"%char then
    match params_next ps with
    | (Some p, ps') => (Ok (ChangeException value p), ps')
    | (None, ps') => (Ok GetExceptions, ps')
    end
  else if Ascii.eqb mode "I"%char then
    match params_next ps with
    | (Some p, ps') => (Ok (ChangeInvitation value p), ps')
    | (None, ps') => (Ok GetInvitations, ps')
    end
  else if Ascii.eqb mode "o"%char then
    match params_next ps with
    | (Some p, ps') => (Ok (ChangeOperator value p), ps')
    | (None, ps') => (Err MissingModeParam, ps')
    end
  else if Ascii.eqb mode "v"%char then
    match params_next ps with
    | (Some p, ps') => (Ok (ChangeVoice value p), ps')
    | (None, ps') => (Err MissingModeParam, ps')
    end
  else (Err (UnknownMode mode), ps).

(** [ChannelQuery::next]. *)
Definition channel_next (q : ChannelQuery)
  : option (result ChannelModeChange Error) * ChannelQuery :=
  match simple_next (cq_inner q) with
  | (None, inner') => (None, mkChannelQuery inner' (cq_params q))
  | (Some (value, mode), inner') =>
      let '(r, ps') := decode_channel_mode value mode (cq_params q) in
      (Some r, mkChannelQuery inner' ps')
  end.

(** The first [n] items of the iterator. *)
Fixpoint channel_items (n : nat) (q : ChannelQuery)
  : list (result ChannelModeChange Error) :=
  match n with
  | O => []
  | S n' =>
      match channel_next q with
      | (None, _) => []
      | (Some r, q') => r :: channel_items n' q'
      end
  end.

End Modes.

Export Modes.

(** ** channel.rs *)

Module Chan.

(** [MemberModes]. *)
Record MemberModes : Type := mkMemberModes {
  creator : bool;
  operator : bool;
  voice : bool;
}.

Definition default_member_modes : MemberModes := mkMemberModes false false false.

(** Client identifiers ([usize], the slab index of the client). *)
Abbreviation ClientId := nat.

(** [Channel].  The member map [HashMap<_, MemberModes>] is kept as the
    list of its entries in iteration order (keys unique); the three
    [HashSet<String>] are finite sets of strings.  The feature-gated
    [msg_modifier] field (feature "irdille") is not compiled by default. *)
Record Channel : Type := mkChannel {
  members : list (ClientId * MemberModes);
  topic : option string;
  user_limit : option N;
  key : option string;
  ban_mask : gset string;
  exception_mask : gset string;
  invitation_mask : gset string;
  anonymous : bool;
  invite_only : bool;
  moderated : bool;
  no_privmsg_from_outside : bool;
  quiet : bool;
  secret : bool;
  reop : bool;
  topic_restricted : bool;
}.

(** [Channel::default()]. *)
Definition default_channel : Channel :=
  mkChannel [] None None None ∅ ∅ ∅ false false false false false false false false.

(** Record update helpers, one per field written by [apply_mode_change]. *)
Definition set_members (ch : Channel) (m : list (ClientId * MemberModes)) : Channel :=
  mkChannel m (topic ch) (user_limit ch) (key ch) (ban_mask ch) (exception_mask ch)
    (invitation_mask ch) (anonymous ch) (invite_only ch) (moderated ch)
    (no_privmsg_from_outside ch) (quiet ch) (secret ch) (reop ch) (topic_restricted ch).
Definition set_user_limit (ch : Channel) (l : option N) : Channel :=
  mkChannel (members ch) (topic ch) l (key ch) (ban_mask ch) (exception_mask ch)
    (invitation_mask ch) (anonymous ch) (invite_only ch) (moderated ch)
    (no_privmsg_from_outside ch) (quiet ch) (secret ch) (reop ch) (topic_restricted ch).
Definition set_key (ch : Channel) (k : option string) : Channel :=
  mkChannel (members ch) (topic ch) (user_limit ch) k (ban_mask ch) (exception_mask ch)
    (invitation_mask ch) (anonymous ch) (invite_only ch) (moderated ch)
    (no_privmsg_from_outside ch) (quiet ch) (secret ch) (reop ch) (topic_restricted ch).
Definition set_ban_mask (ch : Channel) (s : gset string) : Channel :=
  mkChannel (members ch) (topic ch) (user_limit ch) (key ch) s (exception_mask ch)
    (invitation_mask ch) (anonymous ch) (invite_only ch) (moderated ch)
    (no_privmsg_from_outside ch) (quiet ch) (secret ch) (reop ch) (topic_restricted ch).
Definition set_exception_mask (ch : Channel) (s : gset string) : Channel :=
  mkChannel (members ch) (topic ch) (user_limit ch) (key ch) (ban_mask ch) s
    (invitation_mask ch) (anonymous ch) (invite_only ch) (moderated ch)
    (no_privmsg_from_outside ch) (quiet ch) (secret ch) (reop ch) (topic_restricted ch).
Definition set_invitation_mask (ch : Channel) (s : gset string) : Channel :=
  mkChannel (members ch) (topic ch) (user_limit ch) (key ch) (ban_mask ch)
    (exception_mask ch) s (anonymous ch) (invite_only ch) (moderated ch)
    (no_privmsg_from_outside ch) (quiet ch) (secret ch) (reop ch) (topic_restricted ch).
Definition set_anonymous (ch : Channel) (b : bool) : Channel :=
  mkChannel (members ch) (topic ch) (user_limit ch) (key ch) (ban_mask ch)
    (exception_mask ch) (invitation_mask ch) b (invite_only ch) (moderated ch)
    (no_privmsg_from_outside ch) (quiet ch) (secret ch) (reop ch) (topic_restricted ch).
Definition set_invite_only (ch : Channel) (b : bool) : Channel :=
  mkChannel (members ch) (topic ch) (user_limit ch) (key ch) (ban_mask ch)
    (exception_mask ch) (invitation_mask ch) (anonymous ch) b (moderated ch)
    (no_privmsg_from_outside ch) (quiet ch) (secret ch) (reop ch) (topic_restricted ch).
Definition set_moderated (ch : Channel) (b : bool) : Channel :=
  mkChannel (members ch) (topic ch) (user_limit ch) (key ch) (ban_mask ch)
    (exception_mask ch) (invitation_mask ch) (anonymous ch) (invite_only ch) b
    (no_privmsg_from_outside ch) (quiet ch) (secret ch) (reop ch) (topic_restricted ch).
Definition set_no_privmsg_from_outside (ch : Channel) (b : bool) : Channel :=
  mkChannel (members ch) (topic ch) (user_limit ch) (key ch) (ban_mask ch)
    (exception_mask ch) (invitation_mask ch) (anonymous ch) (invite_only ch)
    (moderated ch) b (quiet ch) (secret ch) (reop ch) (topic_restricted ch).
Definition set_quiet (ch : Channel) (b : bool) : Channel :=
  mkChannel (members ch) (topic ch) (user_limit ch) (key ch) (ban_mask ch)
    (exception_mask ch) (invitation_mask ch) (anonymous ch) (invite_only ch)
    (moderated ch) (no_privmsg_from_outside ch) b (secret ch) (reop ch) (topic_restricted ch).
Definition set_secret (ch : Channel) (b : bool) : Channel :=
  mkChannel (members ch) (topic ch) (user_limit ch) (key ch) (ban_mask ch)
    (exception_mask ch) (invitation_mask ch) (anonymous ch) (invite_only ch)
    (moderated ch) (no_privmsg_from_outside ch) (quiet ch) b (reop ch) (topic_restricted ch).
Definition set_topic_restricted (ch : Channel) (b : bool) : Channel :=
  mkChannel (members ch) (topic ch) (user_limit ch) (key ch) (ban_mask ch)
    (exception_mask ch) (invitation_mask ch) (anonymous ch) (invite_only ch)
    (moderated ch) (no_privmsg_from_outside ch) (quiet ch) (secret ch) (reop ch) b.

(** [<usize as FromStr>::from_str] on a 64-bit target: an optional ['+'],
    then at least one ASCII digit, and no overflow past [usize::MAX]. *)
Definition usize_max : N := 18446744073709551615%N.

Fixpoint parse_digits (s : string) (acc : N) : option N :=
  match s with
  | EmptyString => Some acc
  | String c rest =>
      let d := N.of_nat (nat_of_ascii c) in
      if (48 <=? d)%N && (d <=? 57)%N then
        let acc' := (acc * 10 + (d - 48))%N in
        if (usize_max <? acc')%N then None else parse_digits rest acc'
      else None
  end.

Definition parse_usize (s : string) : option N :=
  match s with
  | EmptyString => None
  | String c rest =>
      if Ascii.eqb c "+"%char then
        match rest with
        | EmptyString => None
        | _ => parse_digits rest 0
        end
      else parse_digits s 0
  end.

(** [HashSet::insert] / [HashSet::remove]: the new set and whether it changed. *)
Definition hs_insert (x : string) (s : gset string) : gset string * bool :=
  ({[x]} ∪ s, negb (bool_decide (x ∈ s))).
Definition hs_remove (x : string) (s : gset string) : gset string * bool :=
  (s ∖ {[x]}, bool_decide (x ∈ s)).

(** The loop of the [ChangeOperator] and [ChangeVoice] arms: the first
    member (in iteration order) whose nick is [param] gets its [operator]
    flag set to [value] (the [ChangeVoice] arm too writes [operator]).
    Returns the new member list and [Some applied] when a member matched. *)
Fixpoint set_operator_of_nick (nick_of : ClientId -> string) (param : string)
    (value : bool) (ms : list (ClientId * MemberModes))
  : list (ClientId * MemberModes) * option bool :=
  match ms with
  | [] => ([], None)
  | (m, md) :: rest =>
      if String.eqb (nick_of m) param then
        ((m, mkMemberModes (creator md) value (voice md)) :: rest,
         Some (negb (Bool.eqb (operator md) value)))
      else
        let '(rest', r) := set_operator_of_nick nick_of param value rest in
        ((m, md) :: rest', r)
  end.

(** [Channel::apply_mode_change]: the channel after the call ([&mut self])
    and the returned [Result<bool, Reply>]. *)
Definition apply_mode_change (nick_of : ClientId -> string)
    (change : ChannelModeChange) (ch : Channel) : Channel * result bool Reply :=
  match change with
  | Anonymous v => (set_anonymous ch v, Ok (negb (Bool.eqb (anonymous ch) v)))
  | InviteOnly v => (set_invite_only ch v, Ok (negb (Bool.eqb (invite_only ch) v)))
  | Moderated v => (set_moderated ch v, Ok (negb (Bool.eqb (moderated ch) v)))
  | NoPrivMsgFromOutside v =>
      (set_no_privmsg_from_outside ch v,
       Ok (negb (Bool.eqb (no_privmsg_from_outside ch) v)))
  | Quiet v => (set_quiet ch v, Ok (negb (Bool.eqb (quiet ch) v)))
  | Secret v => (set_secret ch v, Ok (negb (Bool.eqb (secret ch) v)))
  | TopicRestricted v =>
      (set_topic_restricted ch v, Ok (negb (Bool.eqb (topic_restricted ch) v)))
  | Key v k =>
      if v then
        match key ch with
        | Some _ => (ch, Err ERR_KEYSET)
        | None => (set_key ch (Some k), Ok true)
        end
      else
        match key ch with
        | Some chan_key =>
            if String.eqb k chan_key then (set_key ch None, Ok true) else (ch, Ok false)
        | None => (ch, Ok false)
        end
  | UserLimit (Some s) =>
      match parse_usize s with
      | Some limit =>
          let applied := match user_limit ch with
                         | None => true
                         | Some chan_limit => negb (N.eqb chan_limit limit)
                         end in
          (set_user_limit ch (Some limit), Ok applied)
      | None => (ch, Ok false)
      end
  | UserLimit None =>
      (set_user_limit ch None, Ok (match user_limit ch with Some _ => true | None => false end))
  | ChangeBan v p =>
      let '(s, applied) := if v then hs_insert p (ban_mask ch) else hs_remove p (ban_mask ch) in
      (set_ban_mask ch s, Ok applied)
  | ChangeException v p =>
      let '(s, applied) :=
        if v then hs_insert p (exception_mask ch) else hs_remove p (exception_mask ch) in
      (set_exception_mask ch s, Ok applied)
  | ChangeInvitation v p =>
      let '(s, applied) :=
        if v then hs_insert p (invitation_mask ch) else hs_remove p (invitation_mask ch) in
      (set_invitation_mask ch s, Ok applied)
  | ChangeOperator v p | ChangeVoice v p =>
      match set_operator_of_nick nick_of p v (members ch) with
      | (ms, Some applied) => (set_members ch ms, Ok applied)
      | (_, None) => (ch, Err ERR_USERNOTINCHANNEL)
      end
  | _ => (ch, Ok false)
  end.

End Chan.

Export Chan.

(** ** Commands (ellidri-tokens, [Command]) *)

Module Cmd.

(** [Command]: the recognised commands and [Reply] for numerics. *)
Inductive Command : Type :=
| Admin | Authenticate | Away | Cap | Info | Invite | Join | Kick | Kill | List
| Lusers | Mode | Motd | Names | Nick | Notice | Oper | Part | Pass | Ping | Pong
| PrivMsg | Quit | Rehash | SetName | TagMsg | Time | Topic | User | Version | Who
| Whois | Reply (code : string).

(** [Command::as_str] for the commands sent back by the handlers modelled here. *)
Definition as_str (c : Command) : string :=
  match c with
  | Notice => "NOTICE" | PrivMsg => "PRIVMSG" | Quit => "QUIT" | SetName => "SETNAME"
  | TagMsg => "TAGMSG" | Cap => "CAP" | Reply code => code | _ => "COMMAND"
  end.

(** [points_of] (src/src/state/mod.rs). *)
Definition points_of (command : Command) : N :=
  match command with
  | Admin => 1 | Authenticate => 6 | Away => 4 | Cap => 1 | Info => 2 | Invite => 4
  | Join => 4 | Kick => 2 | Kill => 2 | List => 6 | Lusers => 2 | Mode => 2 | Motd => 2
  | Names => 2 | Nick => 4 | Notice => 4 | Oper => 6 | Part => 4 | Pass => 2 | Ping => 1
  | Pong => 1 | PrivMsg => 4 | Quit => 1 | Rehash => 1 | SetName => 4 | TagMsg => 4
  | Time => 2 | Topic => 3 | User => 1 | Version => 1 | Who => 3 | Whois => 3
  | Reply _ => 1
  end%N.

(** [u32::saturating_mul]. *)
Definition u32_max : N := 4294967295%N.
Definition saturating_mul_u32 (a b : N) : N := N.min (a * b) u32_max.

End Cmd.

Export Cmd.

(** ** Outbound lines *)

(** One IRC line as the state builds it with [Buffer] / [ReplyBuffer]:
    its tags (the client's tag blob and the server tags, in order), its
    prefix, its command and its parameters (the trailing one last). *)
Record Msg : Type := mkMsg {
  msg_tags : list string;
  msg_prefix : string;
  msg_command : string;
  msg_params : list string;
}.

(** A line pushed onto the outbound queue of the client with this id. *)
Abbreviation Delivery := (nat * Msg)%type.

(** ** Clients (src/src/client.rs is not in src/) *)

Module Cl.

(** Modelled from the spec: the registration gates of [Client]
    (client.rs, not in src/), "got NICK", "got USER" and "CAP negotiation
    pending"; the PASS and SASL gates are not modelled. *)
Record RegState : Type := mkRegState {
  got_nick : bool;
  got_user : bool;
  cap_pending : bool;
}.

(** Modelled from the spec: [Client] (client.rs, not in src/): the fields
    the handlers below read or write.  [capabilities] holds the names of
    the negotiated capabilities; [client_operator] is the field
    [operator] (renamed, [MemberModes] has a field of that name);
    [last_action_time] is the last-activity timestamp the idle time is
    computed from. *)
Record Client : Type := mkClient {
  nick : string;
  user : string;
  real : string;
  host : string;
  capabilities : gset string;
  reg : RegState;
  away_message : option string;
  client_operator : bool;
  last_action_time : N;
}.

(** Modelled from the spec: [Client::is_registered]. *)
Definition is_registered (c : Client) : bool :=
  got_nick (reg c) && got_user (reg c) && negb (cap_pending (reg c)).

(** Modelled from the spec: [Client::full_name], [nick!~user@host]. *)
Definition full_name (c : Client) : string :=
  nick c ++ "!~" ++ user c ++ "@" ++ host c.

(** Modelled from the spec: [Client::set_real]. *)
Definition set_real (c : Client) (r : string) : Client :=
  mkClient (nick c) (user c) r (host c) (capabilities c) (reg c) (away_message c)
           (client_operator c) (last_action_time c).

Definition set_capabilities (c : Client) (caps : gset string) : Client :=
  mkClient (nick c) (user c) (real c) (host c) caps (reg c) (away_message c)
           (client_operator c) (last_action_time c).

Definition set_reg (c : Client) (r : RegState) : Client :=
  mkClient (nick c) (user c) (real c) (host c) (capabilities c) r (away_message c)
           (client_operator c) (last_action_time c).

(** Modelled from the spec: [Client::update_idle_time]: the last-activity
    timestamp becomes the current time [now]. *)
Definition update_idle_time (c : Client) (now : N) : Client :=
  mkClient (nick c) (user c) (real c) (host c) (capabilities c) (reg c) (away_message c)
           (client_operator c) now.

(** Modelled from the spec: the supported capability tokens (cap.rs, not
    in src/). *)
Definition supported_caps : list string :=
  ["account-notify"; "away-notify"; "batch"; "cap-notify"; "echo-message";
   "invite-notify"; "labeled-response"; "message-tags"; "multi-prefix"; "sasl";
   "server-time"; "setname"; "userhost-in-names"].

(** The space-separated tokens of a capability list. *)
Fixpoint words_aux (s : string) (cur : string) : list string :=
  match s with
  | EmptyString => if String.eqb cur "" then [] else [cur]
  | String c rest =>
      if Ascii.eqb c " "%char
      then (if String.eqb cur "" then [] else [cur]) ++ words_aux rest ""
      else words_aux rest (cur ++ String c EmptyString)
  end.
Definition words (s : string) : list string := words_aux s "".

(** Modelled from the spec: [cap::are_supported]: every requested token is
    a supported capability. *)
Definition are_supported (capabilities : string) : bool :=
  forallb (fun t => existsb (String.eqb t) supported_caps) (words capabilities).

(** Modelled from the spec: [Client::update_capabilities]: the requested
    tokens are enabled. *)
Definition update_capabilities (c : Client) (capabilities : string) : Client :=
  set_capabilities c (list_to_set (words capabilities) ∪ Cl.capabilities c).

(** Modelled from the spec: [Capabilities::is_capable_of]: AUTHENTICATE,
    SETNAME and TAGMSG need their capability. *)
Definition is_capable_of (c : Client) (cmd : Command) : bool :=
  match cmd with
  | Authenticate => bool_decide ("sasl" ∈ Cl.capabilities c)
  | SetName => bool_decide ("setname" ∈ Cl.capabilities c)
  | TagMsg => bool_decide ("message-tags" ∈ Cl.capabilities c)
  | _ => true
  end.

End Cl.

Export Cl.

(** ** Configuration and authentication *)

(** [auth::Provider] implementations ([DummyProvider], [DbProvider]). *)
Inductive Provider : Type :=
| DummyProvider
| DbProvider (url : string).

(** [config::State] (config.rs, not in src/): the fields [StateInner::new]
    and [StateInner::rehash] read.  On rehash, [motd_file] holds the
    contents of the MOTD file. *)
Record Config : Type := mkConfig {
  cfg_domain : string;
  cfg_org_name : string;
  cfg_org_location : string;
  cfg_org_mail : string;
  cfg_motd_file : string;
  cfg_password : option string;
  cfg_default_chan_mode : string;
  cfg_opers : list (string * string);
  cfg_awaylen : N;
  cfg_channellen : N;
  cfg_kicklen : N;
  cfg_namelen : N;
  cfg_nicklen : N;
  cfg_topiclen : N;
  cfg_userlen : N;
  cfg_login_timeout : N;
}.

(** ** The network state (src/src/state/mod.rs) *)

Module St.

(** ASCII case folding of nick and channel keys ([UniCase], CASEMAPPING=ascii). *)
Definition fold_char (c : ascii) : ascii :=
  let n := nat_of_ascii c in
  if Nat.leb 65 n && Nat.leb n 90 then ascii_of_nat (n + 32)%nat else c.
Fixpoint fold (s : string) : string :=
  match s with
  | EmptyString => EmptyString
  | String c rest => String (fold_char c) (fold rest)
  end.

(** [StateInner].  The map keys of [nicks] and [channels] are case-folded
    names; [rehash] is the notification handle, kept opaque. *)
Record StateInner : Type := mkState {
  domain : string;
  org_name : string;
  org_location : string;
  org_mail : string;
  clients : gmap nat Client;
  nicks : gmap string nat;
  channels : gmap string Channel;
  created_at : string;
  motd : option string;
  password : option string;
  default_chan_mode : string;
  opers : list (string * string);
  awaylen : N;
  channellen : N;
  kicklen : N;
  namelen : N;
  nicklen : N;
  topiclen : N;
  userlen : N;
  login_timeout : N;
  auth_provider : Provider;
  rehash_handle : nat;
}.

(** [StateInner::rehash]. *)
Definition rehash (st : StateInner) (config : Config) (ap : Provider) : StateInner :=
  {| domain := cfg_domain config;
     org_name := cfg_org_name config;
     org_location := cfg_org_location config;
     org_mail := org_mail st;
     clients := clients st;
     nicks := nicks st;
     channels := channels st;
     created_at := created_at st;
     motd := if String.eqb (cfg_motd_file config) "" then None
             else Some (cfg_motd_file config);
     password := cfg_password config;
     default_chan_mode := cfg_default_chan_mode config;
     opers := cfg_opers config;
     awaylen := cfg_awaylen config;
     channellen := cfg_channellen config;
     kicklen := cfg_kicklen config;
     namelen := cfg_namelen config;
     nicklen := nicklen st;
     topiclen := cfg_topiclen config;
     userlen := cfg_userlen config;
     login_timeout := cfg_login_timeout config;
     auth_provider := ap;
     rehash_handle := rehash_handle st |}.

Definition set_clients (st : StateInner) (cs : gmap nat Client) : StateInner :=
  {| domain := domain st; org_name := org_name st; org_location := org_location st;
     org_mail := org_mail st; clients := cs; nicks := nicks st; channels := channels st;
     created_at := created_at st; motd := motd st; password := password st;
     default_chan_mode := default_chan_mode st; opers := opers st; awaylen := awaylen st;
     channellen := channellen st; kicklen := kicklen st; namelen := namelen st;
     nicklen := nicklen st; topiclen := topiclen st; userlen := userlen st;
     login_timeout := login_timeout st; auth_provider := auth_provider st;
     rehash_handle := rehash_handle st |}.

Definition set_channels_nicks (st : StateInner) (chs : gmap string Channel)
    (ns : gmap string nat) : StateInner :=
  {| domain := domain st; org_name := org_name st; org_location := org_location st;
     org_mail := org_mail st; clients := clients st; nicks := ns; channels := chs;
     created_at := created_at st; motd := motd st; password := password st;
     default_chan_mode := default_chan_mode st; opers := opers st; awaylen := awaylen st;
     channellen := channellen st; kicklen := kicklen st; namelen := namelen st;
     nicklen := nicklen st; topiclen := topiclen st; userlen := userlen st;
     login_timeout := login_timeout st; auth_provider := auth_provider st;
     rehash_handle := rehash_handle st |}.

End St.

Export St.

(** ** Send utilities and client removal *)

Module Net.

(** A computation that may panic (an out-of-range [Slab] index or an
    [unwrap] on [None]). *)
Inductive outcome (A : Type) : Type :=
| Done (a : A)
| Panic.
Arguments Done {A} a.
Arguments Panic {A}.

Definition obind {A B} (o : outcome A) (k : A -> outcome B) : outcome B :=
  match o with Done a => k a | Panic => Panic end.

Notation "x <- o ;; k" := (obind o (fun x => k))
  (at level 100, o at next level, right associativity).

(** [&self.clients[id]]: panics on a free slot. *)
Definition client_at (st : StateInner) (id : nat) : outcome Client :=
  match clients st !! id with Some c => Done c | None => Panic end.

(** The ids of the members of a channel ([members.keys()]). *)
Definition member_ids (ch : Channel) : list nat := map fst (members ch).

(** [members.contains_key(&id)]. *)
Definition has_member (id : nat) (ch : Channel) : bool :=
  existsb (Nat.eqb id) (member_ids ch).

(** [members.get(&id)]. *)
Fixpoint assoc_get (id : nat) (ms : list (nat * MemberModes)) : option MemberModes :=
  match ms with
  | [] => None
  | (m, md) :: rest => if Nat.eqb m id then Some md else assoc_get id rest
  end.
Definition member_modes (id : nat) (ch : Channel) : option MemberModes :=
  assoc_get id (members ch).

(** [Channel::remove_member]. *)
Definition remove_member (id : nat) (ch : Channel) : Channel :=
  set_members ch (filter (fun m => m.1 <> id) (members ch)).

(** The set [noticed] of [send_notification]: every member of every
    channel that has [from] as member, and [from] itself. *)
Definition noticed (st : StateInner) (from : nat) : gset nat :=
  {[from]} ∪ foldr (fun nc acc => if has_member from nc.2
                                 then list_to_set (member_ids nc.2) ∪ acc else acc)
                   ∅ (map_to_list (channels st)).

(** The delivery loop of [send_notification] over [ids] in iteration order:
    [from] is skipped, [filter] is evaluated on [&self.clients[id]], and
    [send] pushes the line onto the queue of an existing client. *)
Fixpoint notify_each (st : StateInner) (from : nat) (msg : Msg)
    (filter : nat -> Client -> bool) (ids : list nat) : outcome (list Delivery) :=
  match ids with
  | [] => Done []
  | id :: rest =>
      if Nat.eqb from id then notify_each st from msg filter rest
      else
        c <- client_at st id ;;
        tl <- notify_each st from msg filter rest ;;
        Done (if filter id c then (id, msg) :: tl else tl)
  end.

(** [StateInner::send_notification]; the [HashSet] is iterated in the
    order of [elements]. *)
Definition send_notification (st : StateInner) (from : nat) (msg : Msg)
    (filter : nat -> Client -> bool) : outcome (list Delivery) :=
  notify_each st from msg filter (elements (noticed st from)).

(** [channel.members.remove(&id); !channel.members.is_empty()], the
    closure of [self.channels.retain]. *)
Definition retain_without (id : nat) (ch : Channel) : option Channel :=
  let ch' := remove_member id ch in
  match members ch' with [] => None | _ => Some ch' end.

(** [StateInner::remove_client]: [client] has already been taken out of
    [clients]; the ERROR line goes to its own queue. *)
Definition remove_client (st : StateInner) (id : nat) (client : Client)
    (err : string) (reason : option string) : outcome (StateInner * list Delivery) :=
  let response := mkMsg [] (full_name client) "QUIT"
                        (match reason with Some r => [r] | None => [] end) in
  sent <- send_notification st id response (fun _ _ => true) ;;
  let error := mkMsg [] "" "ERROR" [err] in
  Done (set_channels_nicks st (omap (retain_without id) (channels st))
                           (delete (fold (nick client)) (nicks st)),
        (sent ++ [(id, error)])%list).

(** [lines::CLOSING_LINK] (lines.rs, not in src/): its text is not
    involved in any property below. *)
Definition CLOSING_LINK : string := "Connection closed".

(** [StateInner::peer_quit]; an [io::Error] is given by its [to_string]. *)
Definition peer_quit (st : StateInner) (id : nat) (err : option string)
  : outcome (StateInner * list Delivery) :=
  match clients st !! id with
  | None => Done (st, [])
  | Some client =>
      let st1 := set_clients st (delete id (clients st)) in
      match err with
      | Some e => remove_client st1 id client e (Some e)
      | None => remove_client st1 id client CLOSING_LINK None
      end
  end.

(** The result of a command handler: the new state, the lines queued on
    the issuer's [ReplyBuffer], the lines pushed onto other queues, and
    the [HandlerResult]. *)
Abbreviation HandlerOut := (StateInner * list Msg * list Delivery * result unit unit)%type.

(** Modelled from the spec: [StateInner::cmd_quit] (rfc2812.rs, not in
    src/): "identical cleanup to peer_quit but with client-supplied
    reason". *)
Definition cmd_quit (st : StateInner) (id : nat) (reason : string) : outcome HandlerOut :=
  client <- client_at st id ;;
  let st1 := set_clients st (delete id (clients st)) in
  obind (remove_client st1 id client reason (Some reason))
        (fun '(st2, sent) => Done (st2, [], sent, Ok tt)).

(** A numeric or command reply queued on the [ReplyBuffer] of [c]:
    prefixed with the server domain, the client's nick (or [*]) first. *)
Definition rb_reply (st : StateInner) (c : Client) (code : string) (params : list string) : Msg :=
  mkMsg [] (domain st) code ((if String.eqb (nick c) "" then "*" else nick c) :: params).

(** [StateInner::cmd_setname] (src/src/state/ircv3.rs). *)
Definition cmd_setname (st : StateInner) (id : nat) (real : string) : outcome HandlerOut :=
  if String.eqb real "" || (namelen st <? N.of_nat (String.length real))%N then
    Done (st, [mkMsg [] "" "FAIL" ["SETNAME"; "INVALID_REALNAME"]], [], Err tt)
  else
    client <- client_at st id ;;
    let real_response := mkMsg [] (full_name client) "SETNAME" [real] in
    let st1 := set_clients st (<[id := set_real client real]> (clients st)) in
    sent <- send_notification st1 id real_response (fun _ _ => true) ;;
    Done (st1, [mkMsg [] (full_name client) "SETNAME" [real]], sent, Ok tt).

(** [StateInner::cmd_cap_req] (src/src/state/ircv3.rs). *)
Definition cmd_cap_req (st : StateInner) (id : nat) (capabilities : string)
  : outcome HandlerOut :=
  client <- client_at st id ;;
  if negb (are_supported capabilities) then
    Done (st, [rb_reply st client "CAP" ["NAK"; capabilities]], [], Err tt)
  else
    let st1 := set_clients st (<[id := update_capabilities client capabilities]> (clients st)) in
    Done (st1, [rb_reply st client "CAP" ["ACK"; capabilities]], [], Ok tt).

(** [is_valid_channel_name] (src/src/state/mod.rs); on the bytes of the
    name, which agrees with [chars()] for the four ASCII characters
    excluded. *)
Definition is_valid_channel_name (s : string) (max_len : N) : bool :=
  match s with
  | EmptyString => false
  | String first _ =>
      (N.of_nat (String.length s) <=? max_len)%N
      && (Ascii.eqb first "#" || Ascii.eqb first "&")
      && forallb (fun c => negb (Ascii.eqb c " " || Ascii.eqb c ","
                                 || Ascii.eqb c (ascii_of_nat 7) || Ascii.eqb c ":"))
                 (list_ascii_of_string s)
  end%char.

(** [Channel::can_talk]. *)
Definition can_talk (ch : Channel) (id : nat) : bool :=
  if moderated ch then
    match member_modes id ch with Some m => voice m || operator m | None => false end
  else negb (no_privmsg_from_outside ch) || has_member id ch.

(** [find_nick]: [Ok (id, client)] when the nick is bound to a registered
    client; otherwise [Err] and ERR_NOSUCHNICK (401) on the reply buffer. *)
Definition find_nick (st : StateInner) (issuer : Client) (nick : string)
  : outcome (result (nat * Client) Msg) :=
  match nicks st !! fold nick with
  | None => Done (Err (rb_reply st issuer "401" [nick]))
  | Some i =>
      c <- client_at st i ;;
      Done (if is_registered c then Ok (i, c) else Err (rb_reply st issuer "401" [nick]))
  end.

(** [StateInner::build_message]: the echo queued on the sender's reply
    buffer (echo-message) and the tagged line for the recipients; [msgid]
    and [time] are the fresh id and timestamp. *)
Definition build_message (from : Client) (cmd : Command) (target : string)
    (content : option string) (client_tags msgid time : string) : list Msg * Msg :=
  let params := target :: match content with Some c => [c] | None => [] end in
  let tagged := mkMsg [client_tags; "msgid=" ++ msgid; "time=" ++ time]
                      (full_name from) (as_str cmd) params in
  let echo :=
    if bool_decide ("echo-message" ∈ Cl.capabilities from) then
      if bool_decide ("message-tags" ∈ Cl.capabilities from) then [tagged]
      else [mkMsg [] (full_name from) (as_str cmd) params]
    else [] in
  (echo, tagged).

(** The delivery loop over the members of the target channel. *)
Fixpoint deliver_members (st : StateInner) (sender : nat) (cmd : Command) (msg : Msg)
    (ids : list nat) : list Delivery :=
  match ids with
  | [] => []
  | id :: rest =>
      if Nat.eqb id sender then deliver_members st sender cmd msg rest
      else match clients st !! id with
           | Some c => if Cl.is_capable_of c cmd
                       then (id, msg) :: deliver_members st sender cmd msg rest
                       else deliver_members st sender cmd msg rest
           | None => deliver_members st sender cmd msg rest
           end
  end.

(** [StateInner::send_query_or_channel_msg] (PRIVMSG, NOTICE, TAGMSG).
    [msgid] and [time] are the values of [util::new_message_id] and
    [util::time_precise], [now] the clock reading of the sender's
    [update_idle_time]. *)
Definition send_query_or_channel_msg (st : StateInner) (id : nat) (cmd : Command)
    (target : string) (content : option string) (client_tags msgid time : string)
    (now : N) : outcome HandlerOut :=
  client <- client_at st id ;;
  let idle := set_clients st (<[id := update_idle_time client now]> (clients st)) in
  if bool_decide (content = Some "") then
    Done (st, [rb_reply st client "412" []], [], Err tt)
  else if is_valid_channel_name target (channellen st) then
    match channels st !! fold target with
    | None => Done (st, [rb_reply st client "403" [target]], [], Err tt)
    | Some channel =>
        if negb (can_talk channel id) then
          Done (st, [rb_reply st client "404" [target]], [], Err tt)
        else
          let '(echo, msg) := build_message client cmd target content client_tags msgid time in
          Done (idle, echo, deliver_members st id cmd msg (member_ids channel), Ok tt)
    end
  else
    r <- find_nick st client target ;;
    match r with
    | Err reply => Done (st, [reply], [], Err tt)
    | Ok (tid, target_client) =>
        if negb (Cl.is_capable_of target_client cmd) then Done (st, [], [], Err tt)
        else
          let '(echo, msg) := build_message client cmd target content client_tags msgid time in
          let away := match away_message target_client with
                      | Some a => [rb_reply st client "301" [target; a]]
                      | None => [] end in
          Done (idle, (echo ++ away)%list, [(tid, msg)], Ok tt)
    end.

End Net.

Export Net.

(** ** Dispatch (src/src/state/mod.rs, [handle_message]) *)

Module Dispatch.

(** [Message<'_>] (ellidri-tokens): the raw tag blob, the command (or the
    unknown command word), the 15 parameter slots (missing ones are [""])
    and the number of parameters given. *)
Record Message : Type := mkMessage {
  tags : string;
  command : result Command string;
  params : list string;
  num_params : nat;
}.

Definition param (msg : Message) (i : nat) : string := nth i (params msg) "".

Definition MAX_TAG_DATA_LENGTH : N := 4094.

(** The constants [handle_message]'s welcome suite takes from outside src/
    ([server_version!] expands to Cargo metadata; [mode::...] are the
    mode constants of ellidri-tokens): kept under their Rust names. *)
Definition server_version : string := "server_version!()".
Definition USER_MODES : string := "mode::USER_MODES".
Definition SIMPLE_CHAN_MODES : string := "mode::SIMPLE_CHAN_MODES".
Definition EXTENDED_CHAN_MODES : string := "mode::EXTENDED_CHAN_MODES".
Definition CHANMODES : string := "mode::CHANMODES".

(** [str::lines]: the lines of a text, split at ["\n"] with a ["\r"]
    before it dropped; a final ["\n"] ends the last line. *)
Definition strip_cr (l : string) : string :=
  match String.get (String.length l - 1) l with
  | Some "013"%char => String.substring 0 (String.length l - 1) l
  | _ => l
  end.
Fixpoint str_lines_aux (s cur : string) : list string :=
  match s with
  | EmptyString => if String.eqb cur "" then [] else [cur]
  | String "010"%char rest => strip_cr cur :: str_lines_aux rest ""
  | String ch rest => str_lines_aux rest (cur ++ String ch EmptyString)
  end.
Definition str_lines (s : string) : list string := str_lines_aux s "".

(** [send_i_support], [send_lusers] and [send_motd] as the numerics they
    queue, with the parameters the source writes; the trailing texts that
    come from lines.rs (not in src/) are left out, and for the lines.rs
    helpers ([luser_client], [luser_me], [motd_start]) the values they are
    given stand for their parameters. *)
Definition i_support_replies (st : StateInner) (c : Client) : list Msg :=
  [rb_reply st c "005"
     ["CASEMAPPING=ascii"; "CHANLIMIT=#:,&:"; "CHANTYPES=#&"; CHANMODES; "EXCEPTS";
      "HOSTLEN=39"; "INVEX"; "MODES"; "PREFIX=(qaohv)~&@%+"; "SAFELIST";
      "TARGMAX=JOIN:,KICK:1,LIST:,NAMES:,NOTICE:1,PART:,PRIVMSG:1,WHOIS:1"];
   rb_reply st c "005"
     ["AWAYLEN=" ++ pretty.pretty (awaylen st); "CHANNELLEN=" ++ pretty.pretty (channellen st);
      "KICKLEN=" ++ pretty.pretty (kicklen st); "NAMELEN=" ++ pretty.pretty (namelen st);
      "NICKLEN=" ++ pretty.pretty (nicklen st); "TOPICLEN=" ++ pretty.pretty (topiclen st)]].

(** The fold of [send_lusers] over the clients: (operators, unknown). *)
Definition lusers_counts (cs : list Client) : nat * nat :=
  foldl (fun '(op, unknown) x =>
           if negb (is_registered x) then (op, S unknown)
           else if client_operator x then (S op, unknown)
           else (op, unknown)) (0%nat, 0%nat) cs.

Definition lusers_replies (st : StateInner) (c : Client) : list Msg :=
  let cs := map snd (map_to_list (clients st)) in
  let len := pretty.pretty (N.of_nat (length cs)) in
  let '(op, unknown) := lusers_counts cs in
  [rb_reply st c "251" [len]] ++
  (if Nat.ltb 0 op then [rb_reply st c "252" [pretty.pretty (N.of_nat op)]] else []) ++
  (if Nat.ltb 0 unknown then [rb_reply st c "253" [pretty.pretty (N.of_nat unknown)]] else []) ++
  (if bool_decide (channels st = ∅) then []
   else let n := length (filter (fun ch => secret ch = false) (map snd (map_to_list (channels st)))) in
        [rb_reply st c "254" [pretty.pretty (N.of_nat n)]]) ++
  [rb_reply st c "255" [len]].

Definition motd_replies (st : StateInner) (c : Client) : list Msg :=
  match motd st with
  | Some m => [rb_reply st c "375" [domain st]] ++
              map (fun l => rb_reply st c "372" ["- " ++ l]) (str_lines m) ++
              [rb_reply st c "376" []]
  | None => [rb_reply st c "422" []]
  end.

(** [StateInner::send_welcome]: WELCOME, YOURHOST, CREATED, MYINFO, the two
    ISUPPORT lines, the LUSERS replies and the MOTD. *)
Definition send_welcome (st : StateInner) (c : Client) : list Msg :=
  [rb_reply st c "001" [full_name c]; rb_reply st c "002" [domain st; server_version];
   rb_reply st c "003" [created_at st];
   rb_reply st c "004" [domain st; server_version; USER_MODES; SIMPLE_CHAN_MODES;
                        EXTENDED_CHAN_MODES]]
  ++ i_support_replies st c ++ lusers_replies st c ++ motd_replies st c.

(** The reply of [handle_message] to a command without enough parameters:
    the arms of its [match command], in order. *)
Definition need_more_params_reply (st : StateInner) (client : Client) (cmd : Command)
    (num_params : nat) : Msg :=
  match cmd with
  | Nick | Whois => rb_reply st client "431" []
  | PrivMsg | Notice | TagMsg =>
      if Nat.eqb num_params 0 then rb_reply st client "411" []
      else match cmd with
           | PrivMsg | Notice =>
               if Nat.eqb num_params 1 then rb_reply st client "412" []
               else rb_reply st client "461" [as_str cmd]
           | _ => rb_reply st client "461" [as_str cmd]
           end
  | _ => rb_reply st client "461" [as_str cmd]
  end.

Section HandleMessage.

(** The parts of [handle_message] whose code is in files not under src/
    (message.rs, client.rs, rfc2812.rs): every statement below holds for
    any choice of them. *)
Variable has_enough_params : Message -> bool.
Variable can_issue_command : Client -> Command -> string -> bool.
Variable apply_command : Client -> Command -> string -> Client.
Variable other_handlers : nat -> Message -> StateInner -> outcome HandlerOut.

(** [StateInner::handle_message_inner]: QUIT and SETNAME as modelled
    above, the other handlers through [other_handlers]. *)
Definition handle_message_inner (id : nat) (msg : Message) (st : StateInner)
  : outcome HandlerOut :=
  match command msg with
  | Ok Quit => cmd_quit st id (param msg 0)
  | Ok SetName => cmd_setname st id (param msg 0)
  | _ => other_handlers id msg st
  end.

(** [StateInner::handle_message]: the new state, the lines queued on the
    issuer's reply buffer, the lines pushed to other queues and the
    returned [Result<u32, ()>].  The labeled-response envelope of
    [end_lr] (client.rs) is not modelled. *)
Definition handle_message (id : nat) (msg : Message) (st : StateInner)
  : outcome (StateInner * list Msg * list Delivery * result N unit) :=
  match clients st !! id with
  | None => Done (st, [], [], Err tt)
  | Some client =>
    if (MAX_TAG_DATA_LENGTH <? N.of_nat (String.length (tags msg)))%N then
      Done (st, [rb_reply st client "417" []], [], Ok 3%N)
    else
    match command msg with
    | Err unknown =>
        Done (st, [if is_registered client then rb_reply st client "421" [unknown]
                   else rb_reply st client "451" []], [], Ok 1%N)
    | Ok cmd =>
      if negb (Cl.is_capable_of client cmd) then
        Done (st, [if is_registered client then rb_reply st client "421" [as_str cmd]
                   else rb_reply st client "451" []], [], Ok 2%N)
      else if negb (has_enough_params msg) then
        Done (st, [need_more_params_reply st client cmd (num_params msg)], [], Ok 1%N)
      else if negb (can_issue_command client cmd (param msg 0)) then
        Done (st, [if is_registered client then rb_reply st client "462" []
                   else rb_reply st client "451" []], [], Ok 2%N)
      else
        let sub_command := param msg 0 in
        obind (handle_message_inner id msg st) (fun '(st1, rb1, sent, cmd_result) =>
          match clients st1 !! id with
          | None => Done (st1, rb1, sent, Err tt)
          | Some c1 =>
              match cmd_result with
              | Ok _ =>
                  let c2 := apply_command c1 cmd sub_command in
                  let st2 := set_clients st1 (<[id := c2]> (clients st1)) in
                  let rb2 := if is_registered c2 && negb (is_registered c1)
                             then (rb1 ++ send_welcome st2 c2)%list else rb1 in
                  Done (st2, rb2, sent, Ok (points_of cmd))
              | Err _ =>
                  Done (st1, rb1, sent, Ok (saturating_mul_u32 (points_of cmd) 2))
              end
          end)
    end
  end.

End HandleMessage.

(** Modelled from the spec: the minimum number of parameters of each
    command ([Message::has_enough_params], message.rs, not in src/),
    after RFC 2812. *)
Definition min_params (c : Command) : nat :=
  match c with
  | Authenticate | Cap | Join | Mode | Nick | Part | Pass | Ping | Pong | SetName
  | TagMsg | Topic | Whois => 1
  | Invite | Kick | Kill | Notice | Oper | PrivMsg => 2
  | User => 4
  | _ => 0
  end.

Definition spec_has_enough_params (msg : Message) : bool :=
  match command msg with
  | Ok c => Nat.leb (min_params c) (num_params msg)
  | Err _ => true
  end.

(** Modelled from the spec: [Client::can_issue_command]: USER and PASS
    only before registration; before registration only the registration
    commands, PING, PONG and QUIT. *)
Definition spec_can_issue_command (c : Client) (cmd : Command) (_ : string) : bool :=
  match cmd with
  | User | Pass => negb (is_registered c)
  | Cap | Authenticate | Nick | Ping | Pong | Quit => true
  | _ => is_registered c
  end.

(** Modelled from the spec: [Client::apply_command]: NICK and USER set
    their gates, CAP LS/REQ before registration opens a negotiation and
    CAP END closes it. *)
Definition spec_apply_command (c : Client) (cmd : Command) (sub : string) : Client :=
  let r := reg c in
  match cmd with
  | Nick => set_reg c (mkRegState true (got_user r) (cap_pending r))
  | User => set_reg c (mkRegState (got_nick r) true (cap_pending r))
  | Cap =>
      if String.eqb sub "END" then set_reg c (mkRegState (got_nick r) (got_user r) false)
      else if (String.eqb sub "LS" || String.eqb sub "REQ") && negb (is_registered c)
      then set_reg c (mkRegState (got_nick r) (got_user r) true)
      else c
  | _ => c
  end.

End Dispatch.

Export Dispatch.

(** ** Sample network states *)

Module Samples.

Definition registered : RegState := mkRegState true true false.

Definition mk_client (n : string) (caps : gset string) (r : RegState) : Client :=
  mkClient n n n "127.0.0.1" caps r None false 0.

Definition alice : Client := mk_client "alice" {["setname"]} registered.
Definition bob : Client := mk_client "bob" ∅ registered.
Definition carol : Client := mk_client "carol" ∅ registered.
(** A client that sent NICK but not USER yet. *)
Definition dave : Client := mk_client "dave" ∅ (mkRegState true false false).

Definition chan_of (ids : list nat) : Channel :=
  set_members default_channel
    (map (fun i => (i, if Nat.eqb i 0 then mkMemberModes true true false
                       else default_member_modes)) ids).

Definition base_config : Config :=
  mkConfig "elli.dri" "org" "here" "admin@elli.dri" "" None "+nt" [] 200 50 300 64 9
           300 20 60000.

(** An empty network with the configuration [base_config]. *)
Definition empty_state : StateInner :=
  {| domain := "elli.dri"; org_name := "org"; org_location := "here";
     org_mail := "admin@elli.dri"; clients := ∅; nicks := ∅; channels := ∅;
     created_at := "today"; motd := None; password := None;
     default_chan_mode := "+nt"; opers := []; awaylen := 200; channellen := 50;
     kicklen := 300; namelen := 64; nicklen := 9; topiclen := 300; userlen := 20;
     login_timeout := 60000; auth_provider := DummyProvider; rehash_handle := 0 |}.

(** alice (0), bob (1) and carol (2) in [#room] and [#lobby]; dave (3),
    unregistered, holds the nick "dave". *)
Definition net : StateInner :=
  set_channels_nicks
    (set_clients empty_state (<[3 := dave]> (<[2 := carol]> (<[1 := bob]> {[0 := alice]}))))
    (<["#lobby" := chan_of [0; 1; 2]]> {["#room" := chan_of [0; 1; 2]]})
    (<["dave" := 3]> (<["carol" := 2]> (<["bob" := 1]> {["alice" := 0]}))).

(** [net] where bob has negotiated [message-tags]. *)
Definition tags_net : StateInner :=
  set_clients net (<[1 := set_capabilities bob {["message-tags"]}]> (clients net)).

(** A message with the given command and parameters and no tags. *)
Definition line (c : Command) (ps : list string) : Message :=
  mkMessage "" (Ok c) ps (length ps).

(** The handlers of rfc2812.rs other than QUIT, as seen by a command that
    succeeds without effect. *)
Definition quiet_handlers (_ : nat) (_ : Message) (st : StateInner) : outcome HandlerOut :=
  Done (st, [], [], Ok tt).

End Samples.

(** ** Predicates on network states *)

(** [q] and [r] are members of a common channel. *)
Definition shares (st : StateInner) (q r : nat) : Prop :=
  exists name ch, channels st !! name = Some ch /\ q ∈ member_ids ch /\ r ∈ member_ids ch.

(** Invariant 2 of the spec: every channel member is a client. *)
Definition members_are_clients (st : StateInner) : Prop :=
  forall name ch m, channels st !! name = Some ch -> m ∈ member_ids ch ->
                    is_Some (clients st !! m).

(** The QUIT line of [remove_client]. *)
Definition quit_line (c : Client) (reason : option string) : Msg :=
  mkMsg [] (full_name c) "QUIT" (match reason with Some r => [r] | None => [] end).

(** The effects of removing the client [q] (record [c]) from [st], as
    listed by the spec: [st'] is the new state and [sent] the lines
    pushed onto client queues. *)
Definition quit_effects (st : StateInner) (q : nat) (c : Client)
    (reason : option string) (err : string) (st' : StateInner) (sent : list Delivery) : Prop :=
  (forall r, r <> q -> shares st q r ->
     filter (fun d : Delivery => d.1 = r) sent = [(r, quit_line c reason)]) /\
  (forall r, r <> q -> ~ shares st q r ->
     filter (fun d : Delivery => d.1 = r) sent = []) /\
  filter (fun d : Delivery => d.1 = q) sent = [(q, mkMsg [] "" "ERROR" [err])] /\
  clients st' = delete q (clients st) /\
  (forall name ch, channels st' !! name = Some ch ->
     q ∉ member_ids ch /\ members ch <> []) /\
  (forall name ch, channels st !! name = Some ch -> members (remove_member q ch) <> [] ->
     channels st' !! name = Some (remove_member q ch)) /\
  (forall name ch, channels st !! name = Some ch -> members (remove_member q ch) = [] ->
     channels st' !! name = None) /\
  (forall name, channels st !! name = None -> channels st' !! name = None) /\
  nicks st' = delete (fold (nick c)) (nicks st).

(** A decision procedure for [members_are_clients]. *)
Definition members_are_clientsb (st : StateInner) : bool :=
  forallb (fun nc => forallb (fun m => bool_decide (is_Some (clients st !! m)))
                             (member_ids nc.2))
          (map_to_list (channels st)).

(** The returned value of [handle_message]. *)
Definition hm_result {A B C R} (o : outcome (A * B * C * R)) : option R :=
  match o with Done (_, _, _, r) => Some r | Panic => None end.

(** * Further code of modes.rs, channel.rs and state/ *)

(** ** modes.rs: [ChannelModeChange::value] and [::param], [UserQuery] *)

Module CMC.

(** [ChannelModeChange::value]. *)
Definition value (c : ChannelModeChange) : bool :=
  match c with
  | Anonymous v | InviteOnly v | Moderated v | NoPrivMsgFromOutside v | Quiet v
  | Private v | Secret v | TopicRestricted v | Key v _ | ChangeBan v _
  | ChangeException v _ | ChangeInvitation v _ | ChangeOperator v _
  | ChangeVoice v _ => v
  | UserLimit l => match l with Some _ => true | None => false end
  | _ => false
  end.

(** [ChannelModeChange::param]. *)
Definition param (c : ChannelModeChange) : option string :=
  match c with
  | UserLimit (Some p) | Key _ p | ChangeBan _ p | ChangeException _ p
  | ChangeInvitation _ p | ChangeOperator _ p | ChangeVoice _ p => Some p
  | _ => None
  end.

End CMC.

(** The first [n] items of a [SimpleQuery]. *)
Fixpoint simple_items (n : nat) (q : SimpleQuery) : list (bool * ascii) :=
  match n with
  | O => []
  | S n' =>
      match simple_next q with
      | (None, _) => []
      | (Some it, q') => it :: simple_items n' q'
      end
  end.

(** Is a byte a sign of the mode string. *)
Definition is_sign (c : ascii) : bool := Ascii.eqb c "+"%char || Ascii.eqb c "-"%char.

Module UQ.

(** [UserModeChange]. *)
Inductive UserModeChange : Type :=
| Invisible (v : bool)
| Wallops (v : bool)
| ServerNotices (v : bool).

(** [UserQuery::new]. *)
Definition user_query_new (modes : string) : SimpleQuery := mkSimpleQuery modes true.

(** [UserQuery::next]. *)
Definition user_next (q : SimpleQuery) : option (result UserModeChange Error) * SimpleQuery :=
  match simple_next q with
  | (None, q') => (None, q')
  | (Some (value, mode), q') =>
      (Some (if Ascii.eqb mode "i"%char then Ok (Invisible value)
             else if Ascii.eqb mode "w"%char then Ok (Wallops value)
             else if Ascii.eqb mode "s"%char then Ok (ServerNotices value)
             else Err (UnknownMode mode)), q')
  end.

(** The first [n] items of a [UserQuery]. *)
Fixpoint user_items (n : nat) (q : SimpleQuery) : list (result UserModeChange Error) :=
  match n with
  | O => []
  | S n' =>
      match user_next q with
      | (None, _) => []
      | (Some r, q') => r :: user_items n' q'
      end
  end.

End UQ.

(** The letter a user-mode change decodes. *)
Definition user_letter (m : UQ.UserModeChange) : ascii :=
  match m with UQ.Invisible _ => "i" | UQ.Wallops _ => "w" | UQ.ServerNotices _ => "s" end%char.

(** ** channel.rs: members, masks and the mode line *)

Module ChanX.

(** [MemberModes::symbol]. *)
Definition mm_symbol (m : MemberModes) : option ascii :=
  if operator m then Some "@"%char else if voice m then Some "+"%char else None.

(** [HashMap::insert] on the member map: an existing entry keeps its place
    and gets the new value, a new entry is added. *)
Fixpoint members_insert (id : ClientId) (md : MemberModes) (ms : list (ClientId * MemberModes))
  : list (ClientId * MemberModes) :=
  match ms with
  | [] => [(id, md)]
  | (k, v) :: rest =>
      if Nat.eqb k id then (k, md) :: rest else (k, v) :: members_insert id md rest
  end.

(** [Channel::add_member]: the first member is creator and operator. *)
Definition add_member (id : ClientId) (ch : Channel) : Channel :=
  let modes := match members ch with
               | [] => mkMemberModes true true false
               | _ => default_member_modes
               end in
  set_members ch (members_insert id modes (members ch)).

(** [Channel::is_banned]. *)
Definition is_banned (ch : Channel) (nick : string) : bool :=
  bool_decide (nick ∈ ban_mask ch) && negb (bool_decide (nick ∈ exception_mask ch))
  && negb (bool_decide (nick ∈ invitation_mask ch)).

(** [Channel::is_invited]. *)
Definition is_invited (ch : Channel) (nick : string) : bool :=
  negb (invite_only ch) || bool_decide (nick ∈ invitation_mask ch).

(** [usize::to_string]: decimal digits, most significant first; a [usize]
    has at most 20 digits. *)
Fixpoint usize_digits (fuel : nat) (n : N) (acc : string) : string :=
  match fuel with
  | O => acc
  | S f =>
      let acc' := String (ascii_of_N (48 + n mod 10)) acc in
      if (n <? 10)%N then acc' else usize_digits f (n / 10) acc'
  end.
Definition usize_to_string (n : N) : string := usize_digits 20 n "".

Definition flag (b : bool) (c : ascii) : string := if b then String c EmptyString else "".

(** [Channel::modes]: the mode parameter ([raw_param]) and, with
    [full_info], the parameters added after it. *)
Definition modes (ch : Channel) (full_info : bool) : string * list string :=
  ("+" ++ flag (anonymous ch) "a" ++ flag (invite_only ch) "i" ++ flag (moderated ch) "m"
   ++ flag (no_privmsg_from_outside ch) "n" ++ flag (quiet ch) "q" ++ flag (reop ch) "r"
   ++ flag (secret ch) "s" ++ flag (topic_restricted ch) "t"
   ++ flag (match user_limit ch with Some _ => true | None => false end) "l"
   ++ flag (match key ch with Some _ => true | None => false end) "k",
   if full_info then
     ((match user_limit ch with Some l => [usize_to_string l] | None => [] end)
      ++ (match key ch with Some k => [k] | None => [] end))%list
   else []).

(** [Channel::symbol]. *)
Definition chan_symbol (ch : Channel) : string := if secret ch then "@" else "=".

(** The mode fields [Channel::modes] reports. *)
Definition mode_fields (ch : Channel) :=
  (anonymous ch, invite_only ch, moderated ch, no_privmsg_from_outside ch, quiet ch,
   topic_restricted ch, user_limit ch, key ch).

(** Applying a sequence of changes with [apply_mode_change], as MODE does,
    keeping the channel after each one and collecting the results. *)
Fixpoint apply_changes (nick_of : ClientId -> string) (cs : list ChannelModeChange)
    (ch : Channel) : Channel * list (result bool _) :=
  match cs with
  | [] => (ch, [])
  | c :: rest =>
      let '(ch1, r) := apply_mode_change nick_of c ch in
      let '(ch2, rs) := apply_changes nick_of rest ch1 in
      (ch2, r :: rs)
  end.

(** The changes of the [Ok] items of a [ChannelQuery], in order. *)
Fixpoint ok_changes (rs : list (result ChannelModeChange Error)) : list ChannelModeChange :=
  match rs with
  | [] => []
  | Ok c :: rest => c :: ok_changes rest
  | Err _ :: rest => ok_changes rest
  end.

End ChanX.

(** ** state/mod.rs and state/ircv3.rs: the remaining helpers *)

Module StX.

(** [StateInner::remove_if_unregistered]. *)
Definition remove_if_unregistered (st : StateInner) (id : nat) : StateInner :=
  match clients st !! id with
  | Some client =>
      if is_registered client then st
      else set_clients (set_channels_nicks st (channels st) (delete (fold (nick client)) (nicks st)))
                       (delete id (clients st))
  | None => st
  end.

(** [is_valid_nickname]: on the bytes of the nickname. *)
Definition is_valid_nickname_char (c : ascii) : bool :=
  let n := N_of_ascii c in
  (((48 <=? n) && (n <=? 57)) || ((97 <=? n) && (n <=? 122)) || ((65 <=? n) && (n <=? 90))
   || ((91 <=? n) && (n <=? 96)) || ((123 <=? n) && (n <=? 125)))%N.

Definition is_valid_nickname (s : string) (max_len : N) : bool :=
  match s with
  | EmptyString => false
  | String first _ =>
      (N.of_nat (String.length s) <=? max_len)
      && forallb is_valid_nickname_char (list_ascii_of_string s)
      && negb (Ascii.eqb first "-"%char)
      && negb ((48 <=? N_of_ascii first) && (N_of_ascii first <=? 57))
  end%N.

(** [StateInner::cmd_tagmsg]. *)
Definition cmd_tagmsg (st : StateInner) (id : nat) (target client_tags msgid time : string)
    (now : N) : outcome HandlerOut :=
  send_query_or_channel_msg st id TagMsg target None client_tags msgid time now.

Section Cap.

(** [cmd_cap_list] and [cmd_cap_ls] read the capability state of the
    client (client.rs, not in src/). *)
Variable cmd_cap_list : StateInner -> nat -> outcome HandlerOut.
Variable cmd_cap_ls : StateInner -> nat -> string -> outcome HandlerOut.

(** [StateInner::cmd_cap]; [params] is [&ps[..n]], the parameters given;
    [params[0]] panics on an empty slice. *)
Definition cmd_cap (st : StateInner) (id : nat) (params : list string) : outcome HandlerOut :=
  match params with
  | [] => Panic
  | p0 :: rest =>
      let p1 := match rest with p :: _ => p | [] => "" end in
      if String.eqb p0 "END" then Done (st, [], [], Ok tt)
      else if String.eqb p0 "LIST" then cmd_cap_list st id
      else if String.eqb p0 "LS" then cmd_cap_ls st id p1
      else if String.eqb p0 "REQ" then cmd_cap_req st id p1
      else
        client <- client_at st id ;;
        Done (st, [rb_reply st client "410" [p0]], [], Err tt)
  end.

End Cap.

Section Names.

(** [MemberModes::all_symbols] (not in src/). *)
Variable all_symbols : MemberModes -> string.

(** One entry of the RPL_NAMREPLY trailing parameter. *)
Definition name_entry (st : StateInner) (caps : gset string) (mm : nat * MemberModes)
  : outcome string :=
  c <- client_at st mm.1 ;;
  let prefix := if bool_decide ("multi-prefix" ∈ caps) then all_symbols mm.2
                else match ChanX.mm_symbol mm.2 with
                     | Some s => String s EmptyString | None => "" end in
  Done (prefix ++ (if bool_decide ("userhost-in-names" ∈ caps) then full_name c else nick c)).

Fixpoint name_entries (st : StateInner) (caps : gset string) (ms : list (nat * MemberModes))
  : outcome (list string) :=
  match ms with
  | [] => Done []
  | mm :: rest =>
      e <- name_entry st caps mm ;;
      es <- name_entries st caps rest ;;
      Done (e :: es)
  end.

(** [StateInner::send_names]: the replies queued for client [id] (record
    [c]); the entries are joined by single spaces (the last one is
    popped). *)
Definition send_names (st : StateInner) (id : nat) (c : Client) (channel_name : string)
  : outcome (list Msg) :=
  match channels st !! fold channel_name with
  | None => Done []
  | Some channel =>
      if secret channel && negb (has_member id channel) then Done []
      else
        let endofnames := rb_reply st c "366" [channel_name] in
        match members channel with
        | [] => Done [endofnames]
        | _ =>
            me <- client_at st id ;;
            es <- name_entries st (Cl.capabilities me) (members channel) ;;
            Done [rb_reply st c "353" [ChanX.chan_symbol channel; channel_name;
                                       String.concat " " es]; endofnames]
        end
  end.

End Names.

End StX.

(** * Properties *)

Lemma set_operator_of_nick_none nick_of p v ms ms' :
  set_operator_of_nick nick_of p v ms = (ms', None) -> ms' = ms.
Proof.
  revert ms'. induction ms as [|[m md] rest IH]; simpl; intros ms' H.
  - congruence.
  - destruct (String.eqb (nick_of m) p); [congruence|].
    destruct (set_operator_of_nick nick_of p v rest) as [rest' r] eqn:E.
    inversion H; subst. f_equal. auto.
Qed.

Lemma set_operator_of_nick_again nick_of p v ms ms' a :
  set_operator_of_nick nick_of p v ms = (ms', Some a) ->
  set_operator_of_nick nick_of p v ms' = (ms', Some false).
Proof.
  revert ms' a. induction ms as [|[m md] rest IH]; simpl; intros ms' a H.
  - congruence.
  - destruct (String.eqb (nick_of m) p) eqn:Em.
    + inversion H; subst. simpl. rewrite Em. simpl.
      rewrite Bool.eqb_reflx. reflexivity.
    + destruct (set_operator_of_nick nick_of p v rest) as [rest' r] eqn:E.
      inversion H; subst. simpl. rewrite Em.
      rewrite (IH rest' a eq_refl). reflexivity.
Qed.

Lemma hs_insert_again (x : string) (s s' : gset string) a :
  hs_insert x s = (s', a) -> hs_insert x s' = (s', false).
Proof.
  unfold hs_insert. intros H. inversion H; subst. f_equal.
  - apply leibniz_equiv. set_solver.
  - rewrite bool_decide_eq_true_2; [done|set_solver].
Qed.

Lemma hs_remove_again (x : string) (s s' : gset string) a :
  hs_remove x s = (s', a) -> hs_remove x s' = (s', false).
Proof.
  unfold hs_remove. intros H. inversion H; subst. f_equal.
  - apply leibniz_equiv. set_solver.
  - rewrite bool_decide_eq_false_2; [done|set_solver].
Qed.

(** C2 (amended): applying a mode-change record a second time leaves the
    channel as the first application left it.  The second application
    reports no change ([Ok false]), except that it repeats the error of a
    failed first application, and that a key-set record [Key(true, k)]
    always fails the second time with [ERR_KEYSET]. *)
Theorem apply_mode_change_twice nick_of c ch :
  let '(ch1, r1) := apply_mode_change nick_of c ch in
  apply_mode_change nick_of c ch1 =
    (ch1, match r1 with
          | Err e => Err e
          | Ok _ => match c with Key true _ => Err ERR_KEYSET | _ => Ok false end
          end).
Proof.
  destruct c; simpl;
    try (destruct ch; simpl; rewrite ?Bool.eqb_reflx; reflexivity).
  - (* Key *)
    destruct v; destruct (key ch) as [k0|] eqn:Ek; simpl; rewrite ?Ek; try reflexivity.
    destruct (String.eqb k k0) eqn:E; simpl; rewrite ?Ek, ?E; reflexivity.
  - (* UserLimit *)
    destruct l as [s|]; simpl.
    + destruct (parse_usize s) as [limit|] eqn:Ep; simpl; rewrite ?Ep; [|reflexivity].
      rewrite N.eqb_refl. reflexivity.
    + destruct (user_limit ch); reflexivity.
  - destruct v; [destruct (hs_insert p _) as [s a] eqn:E; cbn [ban_mask exception_mask invitation_mask set_ban_mask set_exception_mask set_invitation_mask];
                  rewrite (hs_insert_again _ _ _ _ E)
                | destruct (hs_remove p _) as [s a] eqn:E; cbn [ban_mask exception_mask invitation_mask set_ban_mask set_exception_mask set_invitation_mask];
                  rewrite (hs_remove_again _ _ _ _ E)]; reflexivity.
  - destruct v; [destruct (hs_insert p _) as [s a] eqn:E; cbn [ban_mask exception_mask invitation_mask set_ban_mask set_exception_mask set_invitation_mask];
                  rewrite (hs_insert_again _ _ _ _ E)
                | destruct (hs_remove p _) as [s a] eqn:E; cbn [ban_mask exception_mask invitation_mask set_ban_mask set_exception_mask set_invitation_mask];
                  rewrite (hs_remove_again _ _ _ _ E)]; reflexivity.
  - destruct v; [destruct (hs_insert p _) as [s a] eqn:E; cbn [ban_mask exception_mask invitation_mask set_ban_mask set_exception_mask set_invitation_mask];
                  rewrite (hs_insert_again _ _ _ _ E)
                | destruct (hs_remove p _) as [s a] eqn:E; cbn [ban_mask exception_mask invitation_mask set_ban_mask set_exception_mask set_invitation_mask];
                  rewrite (hs_remove_again _ _ _ _ E)]; reflexivity.
  - destruct (set_operator_of_nick nick_of p v (members ch)) as [ms [a|]] eqn:E; simpl.
    + rewrite (set_operator_of_nick_again _ _ _ _ _ _ E). reflexivity.
    + rewrite E. reflexivity.
  - destruct (set_operator_of_nick nick_of p v (members ch)) as [ms [a|]] eqn:E; simpl.
    + rewrite (set_operator_of_nick_again _ _ _ _ _ _ E). reflexivity.
    + rewrite E. reflexivity.
Qed.

(** C2, counterexample: on a channel without key, [Key(true, "k")] keys
    the channel; applying it again does not report [Ok false] but fails
    with [ERR_KEYSET]. *)
Lemma apply_mode_change_key_twice_fails :
  let nick_of := fun _ : ClientId => "" in
  let ch1 := fst (apply_mode_change nick_of (Key true "k") default_channel) in
  key ch1 = Some "k" /\
  apply_mode_change nick_of (Key true "k") ch1 = (ch1, Err ERR_KEYSET) /\
  snd (apply_mode_change nick_of (Key true "k") ch1) <> Ok false.
Proof. simpl. split; [reflexivity | split; [reflexivity | discriminate]]. Qed.

(** The seven letters other than [s] of the simple channel modes decode,
    under either latched sign, to their change record. *)
Lemma decode_simple_letters value ps :
  decode_channel_mode value "a" ps = (Ok (Anonymous value), ps) /\
  decode_channel_mode value "i" ps = (Ok (InviteOnly value), ps) /\
  decode_channel_mode value "m" ps = (Ok (Moderated value), ps) /\
  decode_channel_mode value "n" ps = (Ok (NoPrivMsgFromOutside value), ps) /\
  decode_channel_mode value "q" ps = (Ok (Quiet value), ps) /\
  decode_channel_mode value "p" ps = (Ok (Private value), ps) /\
  decode_channel_mode value "t" ps = (Ok (TopicRestricted value), ps).
Proof. repeat split. Qed.

(** C3 (code bug): the channel mode parser has no arm for the letter [s]:
    under either sign it yields the unknown-mode error for ['s'], although
    [ChannelModeChange::Secret] exists, [symbol] maps it to ['s'] and
    [apply_mode_change] handles it. *)
Theorem channel_query_secret_unknown value rest ps :
  channel_next (mkChannelQuery (mkSimpleQuery (String "s" rest) value) ps) =
    (Some (Err (UnknownMode "s")), mkChannelQuery (mkSimpleQuery rest value) ps) /\
  symbol (Secret value) = Some "s"%char /\
  fst (channel_next (channel_query_new "+s" [])) = Some (Err (UnknownMode "s")).
Proof. repeat split. Qed.

(** C8 (code bug): unlike every other letter of the channel mode grammar,
    the arm of [l] ignores the latched sign and never fails: with no
    parameter left it yields [UserLimit(None)] under either sign, so
    ["+l"] clears the limit of a limited channel instead of being
    rejected (while ["+k"] without a parameter is [MissingModeParam]),
    and ["-l 7"] sets the limit to 7.  A limit that does not parse yields
    no error record ([BadModeParam] is never produced): the parser passes
    it on as [UserLimit(Some p)] and [apply_mode_change] silently ignores
    it, returning [Ok(false)]. *)
Theorem user_limit_sign_ignored value rest ps :
  channel_next (mkChannelQuery (mkSimpleQuery (String "l" rest) value) ps) =
    (Some (Ok (UserLimit (head ps))), mkChannelQuery (mkSimpleQuery rest value) (tail ps)) /\
  fst (channel_next (channel_query_new "+l" [])) = Some (Ok (UserLimit None)) /\
  apply_mode_change (fun _ => "") (UserLimit None) (set_user_limit default_channel (Some 5%N))
    = (default_channel, Ok true) /\
  fst (channel_next (channel_query_new "+k" [])) = Some (Err MissingModeParam) /\
  fst (channel_next (channel_query_new "-l" ["7"])) = Some (Ok (UserLimit (Some "7"))) /\
  apply_mode_change (fun _ => "") (UserLimit (Some "7")) default_channel
    = (set_user_limit default_channel (Some 7%N), Ok true) /\
  fst (channel_next (channel_query_new "+l" ["ten"])) = Some (Ok (UserLimit (Some "ten"))) /\
  apply_mode_change (fun _ => "") (UserLimit (Some "ten")) default_channel
    = (default_channel, Ok false).
Proof. split; [destruct ps; reflexivity|]. repeat split. Qed.

(** ** Client removal *)

Lemma has_member_spec id ch : has_member id ch = true <-> id ∈ member_ids ch.
Proof.
  unfold has_member. rewrite existsb_exists. split.
  - intros [x [Hin Heq]]. apply Nat.eqb_eq in Heq. subst. by apply list_elem_of_In.
  - intros H. exists id. split; [by apply list_elem_of_In | apply Nat.eqb_refl].
Qed.

Lemma elem_of_noticed_fold from x (l : list (string * Channel)) :
  x ∈ foldr (fun nc acc => if has_member from nc.2
                           then list_to_set (member_ids nc.2) ∪ acc else acc) (∅ : gset nat) l
  <-> exists nc, nc ∈ l /\ from ∈ member_ids nc.2 /\ x ∈ member_ids nc.2.
Proof.
  induction l as [|nc l IH]; simpl.
  - split; [set_solver | intros (nc & Hin & _); set_solver].
  - destruct (has_member from nc.2) eqn:E.
    + rewrite elem_of_union, elem_of_list_to_set, IH. split.
      * intros [Hx | (nc' & Hin & H1 & H2)].
        -- exists nc. apply has_member_spec in E. split; [set_solver | auto].
        -- exists nc'. split; [set_solver | auto].
      * intros (nc' & Hin & H1 & H2). apply elem_of_cons in Hin as [-> | Hin]; [by left|].
        right. exists nc'. auto.
    + rewrite IH. split.
      * intros (nc' & Hin & H1 & H2). exists nc'. split; [set_solver | auto].
      * intros (nc' & Hin & H1 & H2). apply elem_of_cons in Hin as [-> | Hin].
        -- apply has_member_spec in H1. congruence.
        -- exists nc'. auto.
Qed.

Lemma elem_of_noticed st from x : x ∈ noticed st from <-> x = from \/ shares st from x.
Proof.
  unfold noticed, shares. rewrite elem_of_union, elem_of_singleton, elem_of_noticed_fold.
  split.
  - intros [-> | ([name ch] & Hin & H1 & H2)]; [by left|].
    right. exists name, ch. apply elem_of_map_to_list in Hin. auto.
  - intros [-> | (name & ch & Hl & H1 & H2)]; [by left|].
    right. exists (name, ch). rewrite elem_of_map_to_list. auto.
Qed.

Lemma notify_each_all st from msg (ids : list nat) :
  (forall id, id ∈ ids -> id <> from -> is_Some (clients st !! id)) ->
  notify_each st from msg (fun _ _ => true) ids =
    Done (map (fun id => (id, msg)) (filter (fun id => id <> from) ids)).
Proof.
  induction ids as [|a ids IH]; intros H; simpl; [reflexivity|].
  rewrite filter_cons. destruct (Nat.eqb_spec from a) as [->|Hne].
  - rewrite decide_False by congruence. apply IH. intros id Hin. apply H. set_solver.
  - rewrite decide_True by congruence.
    destruct (H a ltac:(set_solver) ltac:(congruence)) as [c Hc].
    unfold client_at. simpl. rewrite Hc. simpl.
    rewrite IH; [reflexivity|]. intros id Hin. apply H. set_solver.
Qed.

Lemma filter_none {A} (P : A -> Prop) `{!forall x, Decision (P x)} (l : list A) :
  (forall x, x ∈ l -> ~ P x) -> filter P l = [].
Proof.
  induction l as [|a l IH]; intros Hn; [reflexivity|].
  rewrite filter_cons_False by (apply Hn; set_solver). apply IH. intros x Hx. apply Hn. set_solver.
Qed.

Lemma filter_deliveries r msg (l : list nat) :
  filter (fun d : Delivery => d.1 = r) (map (fun id => (id, msg)) l) =
  map (fun id => (id, msg)) (filter (fun id => id = r) l).
Proof.
  induction l as [|a l IH]; [reflexivity|]. simpl.
  rewrite !filter_cons. simpl. case_decide; simpl; rewrite IH; reflexivity.
Qed.

Lemma filter_eq_nodup_in r from (ids : list nat) :
  NoDup ids -> r ∈ ids -> r <> from ->
  filter (fun id => id = r) (filter (fun id => id <> from) ids) = [r].
Proof.
  induction ids as [|a ids IH]; intros Hnd Hin Hne; [set_solver|].
  apply NoDup_cons in Hnd as [Hnotin Hnd].
  rewrite filter_cons. apply elem_of_cons in Hin as [-> | Hin].
  - rewrite decide_True by done. rewrite filter_cons, decide_True by done. f_equal.
    apply filter_none. intros x Hx ->.
    apply list_elem_of_filter in Hx as [_ Hx]. contradiction.
  - assert (a <> r) by (intros ->; contradiction).
    case_decide; [rewrite filter_cons, decide_False by done|]; auto.
Qed.

Lemma filter_eq_not_in r from (ids : list nat) :
  r ∉ ids \/ r = from ->
  filter (fun id => id = r) (filter (fun id => id <> from) ids) = [].
Proof.
  intros H. apply filter_none. intros x Hx ->.
  apply list_elem_of_filter in Hx as [Hne Hx]. destruct H; contradiction.
Qed.

Lemma noticed_set_clients st cs q : noticed (set_clients st cs) q = noticed st q.
Proof. reflexivity. Qed.

Lemma retain_without_some q ch ch' :
  retain_without q ch = Some ch' -> ch' = remove_member q ch /\ members ch' <> [].
Proof.
  unfold retain_without. destruct (members (remove_member q ch)) eqn:E; [congruence|].
  intros [= <-]. rewrite E. done.
Qed.

Lemma remove_member_not_in q ch : q ∉ member_ids (remove_member q ch).
Proof.
  unfold member_ids, remove_member, set_members. simpl.
  intros Hin. apply list_elem_of_fmap in Hin as ([m md] & Heq & Hin).
  apply list_elem_of_filter in Hin as [Hne _]. simpl in *. congruence.
Qed.

(** [remove_client], called on a state from which [q] has just been taken
    out of [clients], has the effects [quit_effects]. *)
Lemma remove_client_effects st q c err reason :
  members_are_clients st ->
  exists st' sent,
    remove_client (set_clients st (delete q (clients st))) q c err reason = Done (st', sent) /\
    quit_effects st q c reason err st' sent.
Proof.
  intros Hinv. unfold remove_client, send_notification.
  rewrite noticed_set_clients, notify_each_all.
  2:{ intros id Hin Hne. apply elem_of_elements, elem_of_noticed in Hin as [->|Hsh]; [done|].
      destruct Hsh as (name & ch & Hl & _ & Hid).
      simpl. rewrite lookup_delete_ne by congruence. by apply (Hinv name ch). }
  simpl. eexists _, _. split; [reflexivity|].
  set (ids := elements (noticed st q)).
  assert (Hnd : NoDup ids) by apply NoDup_elements.
  refine (conj _ (conj _ (conj _ (conj _ (conj _ (conj _ (conj _ (conj _ _)))))))).
  - intros r Hne Hsh. rewrite filter_app, filter_deliveries.
    rewrite (filter_eq_nodup_in r q ids Hnd); [| |done].
    + rewrite filter_cons, filter_nil. case_decide as Hd; simpl in Hd; [congruence|].
      rewrite app_nil_r. reflexivity.
    + apply elem_of_elements, elem_of_noticed. by right.
  - intros r Hne Hsh. rewrite filter_app, filter_deliveries, filter_eq_not_in.
    + rewrite filter_cons, filter_nil. case_decide as Hd; simpl in Hd; [congruence|].
      rewrite app_nil_r. reflexivity.
    + left. intros Hin. apply elem_of_elements, elem_of_noticed in Hin as [->|]; auto.
  - rewrite filter_app, filter_deliveries, filter_eq_not_in by (by right).
    rewrite filter_cons, filter_nil. case_decide as Hd; simpl in Hd; [|congruence].
    reflexivity.
  - reflexivity.
  - intros nm ch Hl. simpl in Hl. rewrite lookup_omap in Hl.
    destruct (channels st !! nm) as [ch0|]; simpl in Hl; [|done].
    apply retain_without_some in Hl as [-> Hne]. split; [apply remove_member_not_in | done].
  - intros nm ch Hl Hne. simpl. rewrite lookup_omap, Hl. simpl.
    unfold retain_without. destruct (members (remove_member q ch)); done.
  - intros nm ch Hl Hne. simpl. rewrite lookup_omap, Hl. simpl.
    unfold retain_without. rewrite Hne. done.
  - intros nm Hl. simpl. rewrite lookup_omap, Hl. done.
  - reflexivity.
Qed.

(** C1: removing a client [q], by [peer_quit] (with or without an I/O
    error) or by the QUIT handler, sends every other client that shares a
    channel with [q] exactly one QUIT line and no other client any line,
    sends [q] the ERROR line with the reason, takes [q] out of [clients]
    and of every channel, deletes the channels left empty, keeps the
    others, and unbinds [q]'s case-folded nick; provided every channel
    member is a client (invariant 2). *)
Theorem quit_cleanup st q c :
  members_are_clients st -> clients st !! q = Some c ->
  (forall e, exists st' sent, peer_quit st q (Some e) = Done (st', sent) /\
     quit_effects st q c (Some e) e st' sent) /\
  (exists st' sent, peer_quit st q None = Done (st', sent) /\
     quit_effects st q c None CLOSING_LINK st' sent) /\
  (forall reason, exists st' sent, cmd_quit st q reason = Done (st', [], sent, Ok tt) /\
     quit_effects st q c (Some reason) reason st' sent).
Proof.
  intros Hinv Hc. split; [|split].
  - intros e. unfold peer_quit. rewrite Hc. apply remove_client_effects, Hinv.
  - unfold peer_quit. rewrite Hc. apply remove_client_effects, Hinv.
  - intros reason. unfold cmd_quit, client_at. rewrite Hc. simpl.
    destruct (remove_client_effects st q c reason (Some reason) Hinv)
      as (st' & sent & Heq & Heff).
    rewrite Heq. simpl. eauto.
Qed.

Lemma members_are_clientsb_spec st :
  members_are_clientsb st = true -> members_are_clients st.
Proof.
  unfold members_are_clientsb. intros H nm ch m Hl Hm.
  rewrite forallb_forall in H.
  assert (Hin : In (nm, ch) (map_to_list (channels st))).
  { apply list_elem_of_In, elem_of_map_to_list. done. }
  specialize (H _ Hin). simpl in H. rewrite forallb_forall in H.
  apply list_elem_of_In in Hm. specialize (H _ Hm). by apply bool_decide_eq_true in H.
Qed.

Lemma quit_cleanup_witness :
  members_are_clients Samples.net /\ clients Samples.net !! 0 = Some Samples.alice /\
  (exists st' sent, cmd_quit Samples.net 0 "bye" = Done (st', [], sent, Ok tt) /\
     quit_effects Samples.net 0 Samples.alice (Some "bye") "bye" st' sent).
Proof.
  assert (Hinv : members_are_clients Samples.net)
    by (apply members_are_clientsb_spec; vm_compute; reflexivity).
  split; [exact Hinv|]. split; [reflexivity|].
  apply (quit_cleanup Samples.net 0 Samples.alice Hinv eq_refl).
Defined.

(** ** Rehash *)

(** C4 (code bug): [rehash] keeps [clients], [nicks] and [channels], but it
    also keeps the old [nicklen] and [org_mail]: the configuration's
    nickname length limit and admin mail are never installed. *)
Theorem rehash_frame st config ap :
  clients (rehash st config ap) = clients st /\
  nicks (rehash st config ap) = nicks st /\
  channels (rehash st config ap) = channels st /\
  domain (rehash st config ap) = cfg_domain config /\
  namelen (rehash st config ap) = cfg_namelen config /\
  auth_provider (rehash st config ap) = ap /\
  nicklen (rehash st config ap) = nicklen st /\
  org_mail (rehash st config ap) = org_mail st.
Proof. repeat split. Qed.

(** The failing input of C4: rehashing with [NICKLEN = 16] and a new admin
    mail leaves [NICKLEN = 9] and the old mail. *)
Lemma rehash_keeps_old_nicklen :
  let config := mkConfig "elli.dri" "org" "here" "new@elli.dri" "" None "+nt" []
                         200 50 300 64 16 300 20 60000 in
  let st' := rehash Samples.empty_state config DummyProvider in
  cfg_nicklen config = 16%N /\ nicklen st' = 9%N /\
  cfg_org_mail config = "new@elli.dri" /\ org_mail st' = "admin@elli.dri".
Proof. repeat split. Qed.

(** ** SETNAME *)

(** C5 (code bug): alice, who negotiated [setname], renames herself with
    SETNAME; bob and carol, who share [#room] with her and did not
    negotiate [setname], both receive the SETNAME line, through
    [cmd_setname] and through [handle_message]. *)
Theorem setname_reaches_incapable_peers :
  let line := mkMsg [] "alice!~alice@127.0.0.1" "SETNAME" ["Al"] in
  "setname" ∉ Cl.capabilities Samples.bob /\
  "setname" ∉ Cl.capabilities Samples.carol /\
  shares Samples.net 0 1 /\
  (exists st' rb, cmd_setname Samples.net 0 "Al" = Done (st', rb, [(2, line); (1, line)], Ok tt)) /\
  (exists st' rb, handle_message spec_has_enough_params spec_can_issue_command
                    spec_apply_command Samples.quiet_handlers 0
                    (Samples.line SetName ["Al"]) Samples.net
                  = Done (st', rb, [(2, line); (1, line)], Ok 4%N)).
Proof.
  intros line. split; [set_solver|]. split; [set_solver|]. split.
  - exists "#room"%string. eexists. split; [reflexivity|]. simpl. split; apply list_elem_of_In; simpl; tauto.
  - split; eexists _, _; vm_compute; reflexivity.
Qed.

(** ** Points and client removal in [handle_message] *)

Section HandleMessageProps.

Variable has_enough_params : Message -> bool.
Variable can_issue_command : Client -> Command -> string -> bool.
Variable apply_command : Client -> Command -> string -> Client.
Variable other_handlers : nat -> Message -> StateInner -> outcome HandlerOut.

(** A message from the existing client [id] that passes every check of
    [handle_message] before dispatch, and the outcome of its handler. *)
Definition dispatched (id : nat) (msg : Message) (st : StateInner) (client : Client)
    (cmd : Command) (out : HandlerOut) : Prop :=
  clients st !! id = Some client /\
  (N.of_nat (String.length (tags msg)) <= MAX_TAG_DATA_LENGTH)%N /\
  command msg = Ok cmd /\
  Cl.is_capable_of client cmd = true /\
  has_enough_params msg = true /\
  can_issue_command client cmd (param msg 0) = true /\
  handle_message_inner other_handlers id msg st = Done out.

Lemma handle_message_dispatched id msg st client cmd out :
  dispatched id msg st client cmd out ->
  handle_message has_enough_params can_issue_command apply_command other_handlers id msg st =
  let '(st1, rb1, sent, cmd_result) := out in
  match clients st1 !! id with
  | None => Done (st1, rb1, sent, Err tt)
  | Some c1 =>
      match cmd_result with
      | Ok _ =>
          let c2 := apply_command c1 cmd (param msg 0) in
          let st2 := set_clients st1 (<[id := c2]> (clients st1)) in
          Done (st2, if is_registered c2 && negb (is_registered c1)
                     then (rb1 ++ send_welcome st2 c2)%list else rb1, sent, Ok (points_of cmd))
      | Err _ => Done (st1, rb1, sent, Ok (saturating_mul_u32 (points_of cmd) 2))
      end
  end.
Proof.
  intros (Hc & Ht & Hcmd & Hcap & Hp & Hi & Hh). unfold handle_message.
  rewrite Hc. destruct (MAX_TAG_DATA_LENGTH <? _)%N eqn:E; [apply N.ltb_lt in E; lia|].
  rewrite Hcmd, Hcap, Hp, Hi. simpl. rewrite Hh. destruct out as [[[st1 rb1] sent] r].
  reflexivity.
Qed.

End HandleMessageProps.

(** C6 (amended): once a command is dispatched, [handle_message] returns
    the command's point cost if its handler succeeded and twice that cost
    if it failed, provided the issuing client still exists after the
    handler; if the handler removed the issuer (QUIT), it returns the
    client-gone result [Err(())].  The costs include admin 1, join 4,
    list 6, privmsg 4 and authenticate 6. *)
Theorem handle_message_points has_enough_params can_issue_command apply_command
    other_handlers id msg st client cmd st1 rb1 sent r :
  dispatched has_enough_params can_issue_command other_handlers id msg st client cmd
    (st1, rb1, sent, r) ->
  hm_result (handle_message has_enough_params can_issue_command apply_command
               other_handlers id msg st) =
    Some (match clients st1 !! id with
          | None => Err tt
          | Some _ => match r with
                      | Ok _ => Ok (points_of cmd)
                      | Err _ => Ok (2 * points_of cmd)%N
                      end
          end) /\
  points_of Admin = 1%N /\ points_of Join = 4%N /\ points_of List = 6%N /\
  points_of PrivMsg = 4%N /\ points_of Authenticate = 6%N.
Proof.
  intros Hd. rewrite (handle_message_dispatched _ _ _ _ _ _ _ _ _ _ Hd).
  split; [|repeat split].
  destruct (clients st1 !! id); [|reflexivity].
  destruct r; [reflexivity|]. simpl. f_equal. f_equal.
  unfold saturating_mul_u32, u32_max. rewrite N.min_l; [lia|]. destruct cmd; simpl; lia.
Qed.

Lemma handle_message_points_witness :
  dispatched spec_has_enough_params spec_can_issue_command Samples.quiet_handlers
    0 (Samples.line Admin []) Samples.net Samples.alice Admin (Samples.net, [], [], Ok tt) /\
  hm_result (handle_message spec_has_enough_params spec_can_issue_command spec_apply_command
               Samples.quiet_handlers 0 (Samples.line Admin []) Samples.net) = Some (Ok 1%N).
Proof.
  assert (Hd : dispatched spec_has_enough_params spec_can_issue_command Samples.quiet_handlers
                 0 (Samples.line Admin []) Samples.net Samples.alice Admin
                 (Samples.net, [], [], Ok tt)).
  { repeat split; vm_compute; try reflexivity; discriminate. }
  split; [exact Hd|].
  rewrite (proj1 (handle_message_points _ _ spec_apply_command _ _ _ _ _ _ _ _ _ _ Hd)).
  reflexivity.
Defined.

(** C6, counterexample: a registered client's QUIT succeeds in its
    handler, yet [handle_message] returns [Err(())], not the cost 1 of
    QUIT. *)
Lemma handle_message_quit_no_points :
  hm_result (cmd_quit Samples.net 0 "bye") = Some (Ok tt) /\
  points_of Quit = 1%N /\
  hm_result (handle_message spec_has_enough_params spec_can_issue_command spec_apply_command
               Samples.quiet_handlers 0 (Samples.line Quit ["bye"]) Samples.net) = Some (Err tt).
Proof. split; [vm_compute; reflexivity|]. split; [reflexivity|]. vm_compute. reflexivity. Qed.

(** C9: when the handler has removed the issuing client, [handle_message]
    returns [Err(())] with the state, replies and deliveries exactly as the
    handler left them: no registration gate is advanced and no welcome is
    queued. *)
Theorem handle_message_client_gone has_enough_params can_issue_command apply_command
    other_handlers id msg st client cmd st1 rb1 sent r :
  dispatched has_enough_params can_issue_command other_handlers id msg st client cmd
    (st1, rb1, sent, r) ->
  clients st1 !! id = None ->
  handle_message has_enough_params can_issue_command apply_command other_handlers id msg st
    = Done (st1, rb1, sent, Err tt).
Proof.
  intros Hd Hgone. rewrite (handle_message_dispatched _ _ _ _ _ _ _ _ _ _ Hd).
  rewrite Hgone. reflexivity.
Qed.

Lemma handle_message_client_gone_witness :
  exists st1 rb1 sent,
    dispatched spec_has_enough_params spec_can_issue_command Samples.quiet_handlers
      0 (Samples.line Quit ["bye"]) Samples.net Samples.alice Quit (st1, rb1, sent, Ok tt) /\
    clients st1 !! 0 = None /\
    handle_message spec_has_enough_params spec_can_issue_command spec_apply_command
      Samples.quiet_handlers 0 (Samples.line Quit ["bye"]) Samples.net
      = Done (st1, rb1, sent, Err tt).
Proof.
  do 3 eexists.
  split; [unfold dispatched; repeat split; first [reflexivity | vm_compute; discriminate]|].
  split; [vm_compute; reflexivity|].
  apply (handle_message_client_gone _ _ _ _ _ _ _ Samples.alice Quit _ _ _ (Ok tt)).
  - unfold dispatched; repeat split; first [reflexivity | vm_compute; discriminate].
  - vm_compute. reflexivity.
Defined.

(** ** CAP REQ *)

Lemma forallb_false_In {A} (f : A -> bool) (l : list A) :
  forallb f l = false <-> exists x, In x l /\ f x = false.
Proof.
  induction l as [|a l IH]; simpl.
  - split; [discriminate|]. intros (x & [] & _).
  - destruct (f a) eqn:E; simpl.
    + rewrite IH. split.
      * intros (x & Hx & Hf). eauto.
      * intros (x & [<-|Hx] & Hf); [congruence|eauto].
    + split; [eauto|reflexivity].
Qed.

Lemma existsb_eqb_false t l :
  existsb (String.eqb t) l = false <-> ~ In t l.
Proof.
  rewrite <- Bool.not_true_iff_false, existsb_exists. split.
  - intros Hn Hin. apply Hn. exists t. split; [done|]. apply String.eqb_refl.
  - intros Hn (x & Hx & He). apply String.eqb_eq in He. subst. done.
Qed.

(** C7: CAP REQ is all-or-nothing.  The request is refused exactly when one
    of its tokens is not a supported capability; then the reply is NAK and
    the state, hence every client's capability set, is left unchanged.
    Otherwise the reply is ACK and every requested token is added to the
    client's capability set, the other clients being untouched. *)
Theorem cap_req_all_or_nothing st id c caps :
  clients st !! id = Some c ->
  (are_supported caps = false <->
     exists t, t ∈ words caps /\ t ∉ supported_caps) /\
  (are_supported caps = false ->
     cmd_cap_req st id caps = Done (st, [rb_reply st c "CAP" ["NAK"; caps]], [], Err tt)) /\
  (are_supported caps = true ->
     cmd_cap_req st id caps =
       Done (set_clients st (<[id := update_capabilities c caps]> (clients st)),
             [rb_reply st c "CAP" ["ACK"; caps]], [], Ok tt) /\
     Cl.capabilities c ⊆ Cl.capabilities (update_capabilities c caps) /\
     (forall t, t ∈ words caps -> t ∈ Cl.capabilities (update_capabilities c caps))).
Proof.
  intros Hc. split; [|split].
  - unfold are_supported. rewrite forallb_false_In. split.
    + intros (t & Ht & Hf). exists t. rewrite list_elem_of_In, list_elem_of_In.
      split; [done|]. by apply existsb_eqb_false.
    + intros (t & Ht & Hf). exists t. rewrite list_elem_of_In in Ht.
      rewrite list_elem_of_In in Hf. split; [done|]. by apply existsb_eqb_false.
  - intros Hf. unfold cmd_cap_req, client_at. rewrite Hc. simpl. rewrite Hf. reflexivity.
  - intros Ht. unfold cmd_cap_req, client_at. rewrite Hc. simpl. rewrite Ht. split; [reflexivity|].
    unfold update_capabilities, set_capabilities. simpl. split.
    + set_solver.
    + intros t Hw. apply elem_of_union_l, elem_of_list_to_set. done.
Qed.

Lemma cap_req_all_or_nothing_witness :
  clients Samples.net !! 0 = Some Samples.alice /\
  cmd_cap_req Samples.net 0 "sasl bogus"
    = Done (Samples.net, [rb_reply Samples.net Samples.alice "CAP" ["NAK"; "sasl bogus"]],
            [], Err tt).
Proof.
  split; [reflexivity|].
  apply (proj1 (proj2 (cap_req_all_or_nothing Samples.net 0 Samples.alice "sasl bogus"
                         eq_refl))).
  vm_compute. reflexivity.
Defined.

(** ** Nickname lookup *)

(** C10: a nickname bound in [nicks] to a client that is not registered is
    treated like an unbound nickname: [find_nick] returns the same
    ERR_NOSUCHNICK (401) reply as on the state where the binding is
    removed, and a PRIVMSG, NOTICE or TAGMSG to it only replies 401 to the
    sender, delivers nothing and fails, exactly as for the unbound name. *)
Theorem find_nick_unregistered st id c cmd target content client_tags msgid time now j cj :
  clients st !! id = Some c ->
  content <> Some "" ->
  is_valid_channel_name target (channellen st) = false ->
  nicks st !! fold target = Some j ->
  clients st !! j = Some cj ->
  is_registered cj = false ->
  let unbound := set_channels_nicks st (channels st) (delete (fold target) (nicks st)) in
  find_nick st c target = find_nick unbound c target /\
  find_nick st c target = Done (Err (rb_reply st c "401" [target])) /\
  send_query_or_channel_msg st id cmd target content client_tags msgid time now
    = Done (st, [rb_reply st c "401" [target]], [], Err tt) /\
  send_query_or_channel_msg unbound id cmd target content client_tags msgid time now
    = Done (unbound, [rb_reply st c "401" [target]], [], Err tt).
Proof.
  intros Hc Hne Hv Hn Hj Hr unbound.
  assert (Hf : find_nick st c target = Done (Err (rb_reply st c "401" [target]))).
  { unfold find_nick, client_at. rewrite Hn, Hj. simpl. rewrite Hr. reflexivity. }
  assert (Hu : find_nick unbound c target = Done (Err (rb_reply st c "401" [target]))).
  { unfold find_nick. cbn [nicks unbound set_channels_nicks]. rewrite lookup_delete_eq. reflexivity. }
  split; [congruence|]. split; [exact Hf|]. split.
  - unfold send_query_or_channel_msg. unfold client_at at 1. rewrite Hc. simpl.
    rewrite bool_decide_false by exact Hne. rewrite Hv. rewrite Hf. reflexivity.
  - unfold send_query_or_channel_msg. unfold client_at at 1. simpl. rewrite Hc. simpl.
    rewrite bool_decide_false by exact Hne. rewrite Hv. rewrite Hu. reflexivity.
Qed.

Lemma find_nick_unregistered_witness :
  let unbound := set_channels_nicks Samples.net (channels Samples.net)
                   (delete (fold "dave") (nicks Samples.net)) in
  send_query_or_channel_msg Samples.net 0 PrivMsg "dave" (Some "hi") "" "" "" 0
    = Done (Samples.net, [rb_reply Samples.net Samples.alice "401" ["dave"]], [], Err tt) /\
  send_query_or_channel_msg unbound 0 PrivMsg "dave" (Some "hi") "" "" "" 0
    = Done (unbound, [rb_reply Samples.net Samples.alice "401" ["dave"]], [], Err tt).
Proof.
  destruct (find_nick_unregistered Samples.net 0 Samples.alice PrivMsg "dave" (Some "hi")
              "" "" "" 0 3 Samples.dave eq_refl ltac:(discriminate) ltac:(vm_compute; reflexivity)
              ltac:(vm_compute; reflexivity) eq_refl ltac:(vm_compute; reflexivity))
    as (_ & _ & H1 & H2).
  split; [exact H1 | exact H2].
Defined.

(** * Properties of the further code *)

(** ** Mode queries *)

Lemma simple_next_aux_spec s v :
  match simple_next_aux s v with
  | (None, q') => filter (fun c => is_sign c = false) (list_ascii_of_string s) = [] /\
                  sq_modes q' = ""
  | (Some (b, c), q') =>
      filter (fun c => is_sign c = false) (list_ascii_of_string s)
        = c :: filter (fun c => is_sign c = false) (list_ascii_of_string (sq_modes q')) /\
      String.length (sq_modes q') < String.length s
  end.
Proof.
  induction s as [|a s IH] in v |- *; simpl; [auto|].
  rewrite filter_cons. destruct (Ascii.eqb a "+") eqn:Ep.
  - assert (Hs : is_sign a = true) by (unfold is_sign; rewrite Ep; reflexivity).
    rewrite decide_False by congruence. specialize (IH true).
    destruct (simple_next_aux s true) as [[[b c]|] q']; destruct IH; split; auto; lia.
  - destruct (Ascii.eqb a "-") eqn:Em.
    + assert (Hs : is_sign a = true) by (unfold is_sign; rewrite Ep, Em; reflexivity).
      rewrite decide_False by congruence. specialize (IH false).
      destruct (simple_next_aux s false) as [[[b c]|] q']; destruct IH; split; auto; lia.
    + assert (Hs : is_sign a = false) by (unfold is_sign; rewrite Ep, Em; reflexivity).
      rewrite decide_True by done. simpl. split; [reflexivity | lia].
Qed.

Lemma simple_items_snd n s v :
  String.length s <= n ->
  map snd (simple_items n (mkSimpleQuery s v)) =
  filter (fun c => is_sign c = false) (list_ascii_of_string s).
Proof.
  induction n as [|n IH] in s, v |- *; intros Hl.
  - destruct s; simpl in *; [reflexivity | lia].
  - simpl. unfold simple_next. simpl. pose proof (simple_next_aux_spec s v) as H.
    destruct (simple_next_aux s v) as [[[b c]|] [s' v']]; simpl in *.
    + destruct H as [-> Hlt]. simpl. f_equal. apply IH. lia.
    + destruct H as [-> _]. reflexivity.
Qed.

Lemma channel_items_length n q :
  length (channel_items n q) = length (simple_items n (cq_inner q)).
Proof.
  induction n as [|n IH] in q |- *; [reflexivity|]. simpl.
  unfold channel_next. destruct (simple_next (cq_inner q)) as [[[b c]|] q'] eqn:E; [|reflexivity].
  destruct (decode_channel_mode b c (cq_params q)) as [r ps']. simpl. rewrite IH. reflexivity.
Qed.

Lemma user_items_map n q :
  UQ.user_items n q =
  map (fun '(value, mode) =>
         if Ascii.eqb mode "i"%char then Ok (UQ.Invisible value)
         else if Ascii.eqb mode "w"%char then Ok (UQ.Wallops value)
         else if Ascii.eqb mode "s"%char then Ok (UQ.ServerNotices value)
         else Err (UnknownMode mode)) (simple_items n q).
Proof.
  induction n as [|n IH] in q |- *; [reflexivity|]. simpl. unfold UQ.user_next.
  destruct (simple_next q) as [[[b c]|] q']; simpl; [|reflexivity]. rewrite IH. reflexivity.
Qed.

(** X1: a mode string is read byte by byte: [SimpleQuery] yields exactly
    the bytes other than ['+'] and ['-'], in order, and a [ChannelQuery]
    over the string yields one result per such byte, whatever the
    parameters. *)
Theorem mode_query_letters s v ps :
  map snd (simple_items (String.length s) (mkSimpleQuery s v)) =
    filter (fun c => is_sign c = false) (list_ascii_of_string s) /\
  length (channel_items (String.length s) (channel_query_new s ps)) =
    length (filter (fun c => is_sign c = false) (list_ascii_of_string s)).
Proof.
  split; [by apply simple_items_snd|].
  rewrite channel_items_length. simpl.
  rewrite <- (simple_items_snd (String.length s) s true) by lia. by rewrite length_map.
Qed.

(** X2: [UserQuery] yields one item per byte other than ['+'] and ['-'],
    in order: a change for ['i'], ['w'] and ['s'], and [UnknownMode] of the
    byte for any other byte; it never yields another error. *)
Theorem user_query_items s :
  Forall2 (fun c r => match r with
                      | Ok m => user_letter m = c
                      | Err e => e = UnknownMode c /\ c <> "i"%char /\ c <> "w"%char
                                 /\ c <> "s"%char
                      end)
          (filter (fun c => is_sign c = false) (list_ascii_of_string s))
          (UQ.user_items (String.length s) (UQ.user_query_new s)).
Proof.
  rewrite user_items_map. unfold UQ.user_query_new.
  rewrite <- (simple_items_snd (String.length s) s true) by lia.
  induction (simple_items (String.length s) (mkSimpleQuery s true)) as [|[b c] l IH];
    simpl; constructor; [|exact IH].
  destruct (Ascii.eqb_spec c "i") as [->|Hi]; [reflexivity|].
  destruct (Ascii.eqb_spec c "w") as [->|Hw]; [reflexivity|].
  destruct (Ascii.eqb_spec c "s") as [->|Hs]; [reflexivity|]. auto.
Qed.

(** X3: decoding one channel-mode letter is undone by [symbol] and
    [param]: a decoded change other than the list queries GetBans,
    GetExceptions and GetInvitations has the letter as its symbol, takes
    exactly the parameter it reports from the front of the parameter list,
    and carries the latched sign as its value ('l' excepted, whose value
    is whether a limit was given).  The list queries are decoded only when
    no parameter is left.  An error consumes nothing, except a missing
    parameter, reported only for 'k', 'o' and 'v' with no parameter left;
    [BadModeParam] is never produced. *)
Theorem decode_channel_mode_roundtrip value mode ps r ps' :
  decode_channel_mode value mode ps = (r, ps') ->
  match r with
  | Ok GetBans | Ok GetExceptions | Ok GetInvitations => ps = [] /\ ps' = []
  | Ok c =>
      symbol c = Some mode /\
      ps = (match CMC.param c with Some p => [p] | None => [] end ++ ps')%list /\
      CMC.value c = (if Ascii.eqb mode "l"%char
                     then match ps with [] => false | _ => true end else value)
  | Err MissingModeParam =>
      ps = [] /\ ps' = [] /\ (mode = "k"%char \/ mode = "o"%char \/ mode = "v"%char)
  | Err (UnknownMode m) => m = mode /\ ps' = ps
  | Err BadModeParam => False
  end.
Proof.
  unfold decode_channel_mode.
  repeat match goal with
         | |- context [Ascii.eqb mode ?x] =>
             destruct (Ascii.eqb_spec mode x) as [->|]; [|]
         end;
  try (intros [= <- <-]; simpl; auto; fail);
  destruct ps as [|p ps0]; simpl; intros [= <- <-]; simpl; auto; try tauto.
Qed.

(** ** Channel members and modes *)

Lemma set_operator_of_nick_spec nick_of p v ms ms' o :
  set_operator_of_nick nick_of p v ms = (ms', o) ->
  map fst ms' = map fst ms /\
  map (fun m => voice m.2) ms' = map (fun m => voice m.2) ms /\
  match o with
  | None => ms' = ms /\ forall m, m ∈ map fst ms -> nick_of m <> p
  | Some _ => exists m md, (m, md) ∈ ms' /\ nick_of m = p /\ operator md = v
  end.
Proof.
  induction ms as [|[m md] ms IH] in ms', o |- *; simpl.
  - intros [= <- <-]. split; [done|]. split; [done|]. split; [done|]. set_solver.
  - destruct (String.eqb_spec (nick_of m) p) as [Hm|Hm].
    + intros [= <- <-]. simpl. split; [done|]. split; [done|].
      exists m, (mkMemberModes (creator md) v (voice md)). split; [set_solver|auto].
    + destruct (set_operator_of_nick nick_of p v ms) as [rest' r] eqn:E.
      intros [= <- <-]. destruct (IH _ _ eq_refl) as (H1 & H2 & H3). simpl.
      rewrite H1, H2. split; [done|]. split; [done|]. destruct r.
      * destruct H3 as (m' & md' & Hin & ? & ?). exists m', md'. split; [set_solver|auto].
      * destruct H3 as [-> H3]. split; [done|]. intros m' Hin.
        apply elem_of_cons in Hin as [->|Hin]; auto.
Qed.

(** X4: the 'v' mode change [ChangeVoice(v, nick)] never changes a voice
    flag: it keeps the member list and every member's voice flag, and sets
    the operator flag of a member named [nick] to [v] (so that member's
    prefix becomes '@' when [v] holds); it fails with ERR_USERNOTINCHANNEL,
    changing nothing, exactly when no member has that nick. *)
Theorem change_voice_sets_operator nick_of v p ch ch' r :
  apply_mode_change nick_of (ChangeVoice v p) ch = (ch', r) ->
  member_ids ch' = member_ids ch /\
  map (fun m => voice m.2) (members ch') = map (fun m => voice m.2) (members ch) /\
  (r = Err ERR_USERNOTINCHANNEL <-> forall m, m ∈ member_ids ch -> nick_of m <> p) /\
  (r = Err ERR_USERNOTINCHANNEL -> ch' = ch) /\
  (r <> Err ERR_USERNOTINCHANNEL ->
     exists m md, (m, md) ∈ members ch' /\ nick_of m = p /\ operator md = v /\
                  (v = true -> ChanX.mm_symbol md = Some "@"%char)).
Proof.
  simpl. destruct (set_operator_of_nick nick_of p v (members ch)) as [ms [b|]] eqn:E;
    destruct (set_operator_of_nick_spec _ _ _ _ _ _ E) as (H1 & H2 & H3);
    intros [= <- <-]; unfold member_ids.
  - simpl. split; [done|]. split; [done|]. split.
    + split; [discriminate|]. intros Hn. destruct H3 as (m & md & Hin & Hp & _).
      exfalso. apply (Hn m); [|done]. rewrite <- H1. apply list_elem_of_fmap. by exists (m, md).
    + split; [discriminate|]. intros _. destruct H3 as (m & md & Hin & Hp & Hop).
      exists m, md. repeat split; auto. intros ->. unfold ChanX.mm_symbol. by rewrite Hop.
  - destruct H3 as [-> H3]. split; [done|]. split; [done|]. split; [split; auto|].
    split; [done|]. intros Hc. by contradiction Hc.
Qed.

Lemma apply_mode_change_members nick_of c ch :
  (forall v p, c <> ChangeOperator v p) -> (forall v p, c <> ChangeVoice v p) ->
  members (apply_mode_change nick_of c ch).1 = members ch.
Proof.
  intros Ho Hv. destruct c; simpl; repeat case_match; simpl; try reflexivity;
    exfalso; first [eapply Ho; reflexivity | eapply Hv; reflexivity].
Qed.

Lemma apply_mode_change_topic nick_of c ch :
  topic (apply_mode_change nick_of c ch).1 = topic ch.
Proof. destruct c; simpl; repeat case_match; reflexivity. Qed.

(** X5: [apply_mode_change] never adds or removes a member and never
    touches the topic; only 'o' and 'v' change member modes; [Private],
    which the parser accepts for 'p', and the list queries GetBans,
    GetExceptions and GetInvitations change nothing and return Ok(false). *)
Theorem apply_mode_change_frame nick_of c ch :
  member_ids (apply_mode_change nick_of c ch).1 = member_ids ch /\
  topic (apply_mode_change nick_of c ch).1 = topic ch /\
  ((forall v p, c <> ChangeOperator v p) -> (forall v p, c <> ChangeVoice v p) ->
     members (apply_mode_change nick_of c ch).1 = members ch) /\
  ((exists v, c = Private v) \/ c = GetBans \/ c = GetExceptions \/ c = GetInvitations ->
     apply_mode_change nick_of c ch = (ch, Ok false)).
Proof.
  split; [|split; [apply apply_mode_change_topic|split; [apply apply_mode_change_members|]]].
  - destruct c; try (unfold member_ids; rewrite apply_mode_change_members;
                     [reflexivity | intros ??; discriminate | intros ??; discriminate]);
      simpl; destruct (set_operator_of_nick nick_of p v (members ch)) as [ms o] eqn:E;
      destruct (set_operator_of_nick_spec _ _ _ _ _ _ E) as (H1 & _);
      destruct o; simpl; [exact H1 | reflexivity | exact H1 | reflexivity].
  - intros [[v0 Hc] | [Hc | [Hc | Hc]]]; subst c; reflexivity.
Qed.

Lemma members_insert_get id md ms j :
  assoc_get j (ChanX.members_insert id md ms) = if Nat.eqb j id then Some md else assoc_get j ms.
Proof.
  induction ms as [|[k v] ms IH]; simpl.
  - destruct (Nat.eqb_spec id j), (Nat.eqb_spec j id); subst; congruence.
  - destruct (Nat.eqb_spec k id) as [->|Hk]; simpl.
    + destruct (Nat.eqb_spec id j), (Nat.eqb_spec j id); subst; congruence.
    + rewrite IH. destruct (Nat.eqb_spec k j), (Nat.eqb_spec j id); subst; congruence.
Qed.

Lemma members_insert_keys id md ms :
  map fst (ChanX.members_insert id md ms) =
    if existsb (Nat.eqb id) (map fst ms) then map fst ms else (map fst ms ++ [id])%list.
Proof.
  induction ms as [|[k v] ms IH]; simpl; [reflexivity|].
  destruct (Nat.eqb_spec k id) as [->|Hk]; simpl.
  - by rewrite Nat.eqb_refl.
  - rewrite IH. destruct (Nat.eqb_spec id k); [congruence|]. simpl.
    destruct (existsb (Nat.eqb id) (map fst ms)); reflexivity.
Qed.

(** X6: [Channel::add_member] gives the new member creator and operator
    modes when the channel has no member and no mode otherwise; a client
    that is already a member keeps its place but has its modes reset the
    same way (it loses operator and voice in a non-empty channel); the
    other members keep their modes, and the member ids stay distinct. *)
Theorem add_member_modes id ch :
  member_modes id (ChanX.add_member id ch) =
    Some (match members ch with
          | [] => mkMemberModes true true false
          | _ => default_member_modes
          end) /\
  (forall j, j <> id -> member_modes j (ChanX.add_member id ch) = member_modes j ch) /\
  (NoDup (member_ids ch) -> NoDup (member_ids (ChanX.add_member id ch))) /\
  (id ∈ member_ids ch -> member_ids (ChanX.add_member id ch) = member_ids ch).
Proof.
  unfold ChanX.add_member, member_modes, member_ids, set_members. simpl.
  rewrite !members_insert_get, Nat.eqb_refl. split; [reflexivity|]. split.
  { intros j Hj. rewrite members_insert_get. apply Nat.eqb_neq in Hj. by rewrite Hj. }
  rewrite members_insert_keys.
  destruct (existsb (Nat.eqb id) (map fst (members ch))) eqn:E; split; auto.
  - intros Hnd. apply NoDup_app. split; [done|]. split; [|apply NoDup_singleton].
    intros x Hx ->%list_elem_of_singleton. apply Bool.not_true_iff_false in E. apply E.
    apply existsb_exists. exists id. split; [by apply list_elem_of_In | apply Nat.eqb_refl].
  - intros Hin. apply Bool.not_true_iff_false in E. exfalso. apply E.
    apply existsb_exists. exists id. split; [by apply list_elem_of_In | apply Nat.eqb_refl].
Qed.

Lemma assoc_get_filter id j ms :
  assoc_get j (filter (fun m : ClientId * MemberModes => m.1 <> id) ms) =
    if Nat.eqb j id then None else assoc_get j ms.
Proof.
  induction ms as [|[k v] ms IH]; simpl.
  - by destruct (Nat.eqb j id).
  - rewrite filter_cons. simpl. case_decide as Hk.
    + simpl. rewrite IH. destruct (Nat.eqb_spec k j), (Nat.eqb_spec j id); subst; congruence.
    + try apply dec_stable in Hk. subst k. rewrite IH.
      destruct (Nat.eqb_spec id j), (Nat.eqb_spec j id); subst; congruence.
Qed.

(** X7: [Channel::remove_member] takes exactly the given client out of the
    member map: it is no longer a member, every other member keeps its
    modes, and distinct member ids stay distinct. *)
Theorem remove_member_modes id ch :
  member_modes id (remove_member id ch) = None /\
  (forall j, j <> id -> member_modes j (remove_member id ch) = member_modes j ch) /\
  (NoDup (member_ids ch) -> NoDup (member_ids (remove_member id ch))).
Proof.
  unfold member_modes, remove_member, set_members. simpl.
  rewrite !assoc_get_filter, Nat.eqb_refl. split; [reflexivity|]. split.
  - intros j Hj. rewrite assoc_get_filter. apply Nat.eqb_neq in Hj. by rewrite Hj.
  - unfold member_ids. simpl. intros Hnd.
    induction (members ch) as [|[k v] ms IH]; simpl; [constructor|].
    apply NoDup_cons in Hnd as [Hk Hnd]. rewrite filter_cons. case_decide; simpl; auto.
    constructor; auto. intros Hin. apply Hk. apply list_elem_of_fmap in Hin as ([k' v'] & -> & Hin).
    apply list_elem_of_filter in Hin as [_ Hin]. apply list_elem_of_fmap. by exists (k', v').
Qed.

(** X8: a nick on the invitation list is invited and never banned, a nick
    on the exception list is never banned, and a channel without +i
    invites every nick. *)
Theorem ban_invite_masks ch nick :
  (nick ∈ invitation_mask ch -> ChanX.is_invited ch nick = true /\ ChanX.is_banned ch nick = false) /\
  (nick ∈ exception_mask ch -> ChanX.is_banned ch nick = false) /\
  (invite_only ch = false -> ChanX.is_invited ch nick = true) /\
  (nick ∉ ban_mask ch -> ChanX.is_banned ch nick = false).
Proof.
  unfold ChanX.is_invited, ChanX.is_banned. split; [|split; [|split]].
  - intros H. rewrite !(bool_decide_eq_true_2 (nick ∈ invitation_mask ch)) by done.
    rewrite orb_true_r, andb_false_r. done.
  - intros H. rewrite (bool_decide_eq_true_2 (nick ∈ exception_mask ch)) by done.
    rewrite andb_false_r. done.
  - intros ->. done.
  - intros H. rewrite (bool_decide_eq_false_2 (nick ∈ ban_mask ch)) by done. done.
Qed.

(** X9: who may talk in a channel: in a moderated (+m) channel a
    non-member, or a member with neither voice nor operator, may not; in a
    channel without +m every member may, and without +m and +n everyone
    may. *)
Theorem can_talk_rules ch id :
  (moderated ch = true -> id ∉ member_ids ch -> can_talk ch id = false) /\
  (moderated ch = true -> forall md, member_modes id ch = Some md ->
     can_talk ch id = voice md || operator md) /\
  (moderated ch = false -> id ∈ member_ids ch -> can_talk ch id = true) /\
  (moderated ch = false -> no_privmsg_from_outside ch = false -> can_talk ch id = true).
Proof.
  unfold can_talk. split; [|split; [|split]].
  - intros -> Hn. destruct (member_modes id ch) eqn:E; [|done]. exfalso. apply Hn.
    unfold member_modes, member_ids in *. induction (members ch) as [|[k v] ms IH]; simpl in *;
      [done|]. destruct (Nat.eqb_spec k id) as [->|]; [set_solver|]. set_solver.
  - intros -> md ->. done.
  - intros -> Hin. apply has_member_spec in Hin. rewrite Hin. apply orb_true_r.
  - intros -> ->. done.
Qed.

(** ** The mode line of a channel *)

Lemma digit_N_of_ascii d : (d < 10)%N -> N_of_ascii (ascii_of_N (48 + d)) = (48 + d)%N.
Proof. intros Hd. apply N_ascii_embedding. lia. Qed.

Lemma parse_digits_digit d s a :
  (d < 10)%N ->
  parse_digits (String (ascii_of_N (48 + d)) s) a =
    if (usize_max <? a * 10 + d)%N then None else parse_digits s (a * 10 + d).
Proof.
  intros Hd. simpl. unfold nat_of_ascii. rewrite N2Nat.id, digit_N_of_ascii by done.
  rewrite (proj2 (N.leb_le 48 (48 + d))) by lia.
  rewrite (proj2 (N.leb_le (48 + d) 57)) by lia. simpl.
  replace (48 + d - 48)%N with d by lia. reflexivity.
Qed.

Lemma usize_digits_S f n acc :
  ChanX.usize_digits (S f) n acc =
    let acc' := String (ascii_of_N (48 + n mod 10)) acc in
    if (n <? 10)%N then acc' else ChanX.usize_digits f (n / 10) acc'.
Proof. reflexivity. Qed.

Lemma usize_digits_parse f n :
  (n < 10 ^ N.of_nat (S f))%N ->
  exists k, forall acc a,
    parse_digits (ChanX.usize_digits (S f) n acc) a =
      if (a * 10 ^ k + n <=? usize_max)%N then parse_digits acc (a * 10 ^ k + n) else None.
Proof.
  induction f as [|f IH] in n |- *; intros Hn.
  - exists 1%N. intros acc a. simpl. rewrite (proj2 (N.ltb_lt n 10)) by (simpl in Hn; lia).
    rewrite parse_digits_digit by (apply N.mod_lt; lia).
    rewrite N.mod_small by (simpl in Hn; lia). rewrite N.pow_1_r.
    destruct (N.ltb_spec usize_max (a * 10 + n)), (N.leb_spec (a * 10 + n) usize_max);
      try lia; reflexivity.
  - destruct (N.ltb_spec n 10) as [Hlt|Hge].
    + exists 1%N. intros acc a. rewrite usize_digits_S, (proj2 (N.ltb_lt n 10)) by done.
      rewrite parse_digits_digit by (apply N.mod_lt; lia).
      rewrite N.mod_small by lia. rewrite N.pow_1_r.
      destruct (N.ltb_spec usize_max (a * 10 + n)), (N.leb_spec (a * 10 + n) usize_max);
        try lia; reflexivity.
    + destruct (IH (n / 10)%N) as [k Hk].
      { apply N.Div0.div_lt_upper_bound. rewrite Nat2N.inj_succ, N.pow_succ_r' in Hn. lia. }
      exists (N.succ k). intros acc a.
      rewrite usize_digits_S, (proj2 (N.ltb_ge n 10)) by lia. cbv zeta. rewrite Hk.
      pose proof (N.Div0.div_mod n 10) as Hdm. pose proof (N.mod_lt n 10 ltac:(lia)) as Hm.
      rewrite N.pow_succ_r'.
      destruct (N.leb_spec (a * 10 ^ k + n / 10) usize_max) as [Hle|Hgt].
      * rewrite parse_digits_digit by done.
        replace ((a * 10 ^ k + n / 10) * 10 + n mod 10)%N with (a * (10 * 10 ^ k) + n)%N by lia.
        destruct (N.ltb_spec usize_max (a * (10 * 10 ^ k) + n)),
                 (N.leb_spec (a * (10 * 10 ^ k) + n) usize_max); try lia; reflexivity.
      * destruct (N.leb_spec (a * (10 * 10 ^ k) + n) usize_max); [|reflexivity]. exfalso.
        assert (a * 10 ^ k <= a * (10 * 10 ^ k))%N by (apply N.mul_le_mono_l; lia).
        generalize dependent (a * (10 * 10 ^ k))%N. generalize dependent (a * 10 ^ k)%N.
        generalize dependent (n / 10)%N. generalize dependent (n mod 10)%N. intros. lia.
Qed.

Lemma usize_digits_head f n acc :
  exists c rest, ChanX.usize_digits (S f) n acc = String c rest /\ c <> "+"%char.
Proof.
  induction f as [|f IH] in n, acc |- *; cbn [ChanX.usize_digits].
  - destruct (n <? 10)%N; simpl; eexists _, _; split; try reflexivity;
      intros Heq; apply (f_equal N_of_ascii) in Heq;
      rewrite digit_N_of_ascii in Heq by (apply N.mod_lt; lia); change (N_of_ascii "+"%char) with 43%N in Heq; revert Heq; generalize (n mod 10)%N; intros; lia.
  - destruct (n <? 10)%N.
    + eexists _, _. split; [reflexivity|]. intros Heq. apply (f_equal N_of_ascii) in Heq.
      rewrite digit_N_of_ascii in Heq by (apply N.mod_lt; lia). change (N_of_ascii "+"%char) with 43%N in Heq. revert Heq. generalize (n mod 10)%N. intros. lia.
    + apply IH.
Qed.

(** [usize::to_string] is read back by [usize::from_str]. *)
Lemma parse_usize_to_string n :
  (n <= usize_max)%N -> parse_usize (ChanX.usize_to_string n) = Some n.
Proof.
  intros Hn. unfold ChanX.usize_to_string.
  destruct (usize_digits_head 19 n "") as (c & rest & Heq & Hc).
  destruct (usize_digits_parse 19 n) as [k Hk].
  { unfold usize_max in Hn. simpl. lia. }
  rewrite Heq. unfold parse_usize.
  destruct (Ascii.eqb_spec c "+"); [contradiction|]. rewrite <- Heq, Hk.
  replace (0 * 10 ^ k + n)%N with n by lia.
  destruct (N.leb_spec n usize_max); [reflexivity | lia].
Qed.

(** X10: the mode line of a channel without +r and +s, read back by
    [ChannelQuery] and applied by [apply_mode_change] to a fresh channel,
    rebuilds the modes it reports: every item decodes, every change is
    applied, and the flags, the user limit and the key are those of the
    original channel. *)
Theorem modes_roundtrip nick_of ch :
  reop ch = false -> secret ch = false ->
  (forall l, user_limit ch = Some l -> (l <= usize_max)%N) ->
  let m := fst (ChanX.modes ch true) in
  let items := channel_items (String.length m) (channel_query_new m (snd (ChanX.modes ch true))) in
  let res := ChanX.apply_changes nick_of (ChanX.ok_changes items) default_channel in
  Forall (fun r => exists c, r = Ok c) items /\
  Forall (fun r => r = Ok true) res.2 /\
  ChanX.mode_fields res.1 = ChanX.mode_fields ch.
Proof.
  destruct ch as [mems tp ul ky bm em im an io mo np qu se re tr]; simpl.
  intros -> -> Hul.
  assert (Hp : forall l, ul = Some l -> parse_usize (ChanX.usize_to_string l) = Some l).
  { intros l Hl. apply parse_usize_to_string, Hul, Hl. }
  clear Hul.
  destruct ul as [l|]; [specialize (Hp l eq_refl);
    set (str := ChanX.usize_to_string l) in *; clearbody str|clear Hp];
  destruct ky as [k|]; destruct an, io, mo, np, qu, tr;
  simpl; rewrite ?Hp; simpl;
  (split; [repeat constructor; eexists; reflexivity|split; [repeat constructor|reflexivity]]).
Qed.

(** X11: the letters +s and +r that [Channel::modes] writes are not modes
    [ChannelQuery] knows: reading back the mode line of a secret or a reop
    channel yields an [UnknownMode] error for that letter. *)
Theorem modes_secret_reop_unknown ch full_info :
  let m := fst (ChanX.modes ch full_info) in
  let items := channel_items (String.length m) (channel_query_new m (snd (ChanX.modes ch full_info))) in
  (secret ch = true -> In (Err (UnknownMode "s"%char)) items) /\
  (reop ch = true -> In (Err (UnknownMode "r"%char)) items).
Proof.
  destruct ch as [mems tp ul ky bm em im an io mo np qu se re tr]; simpl.
  destruct ul as [l|]; [set (str := ChanX.usize_to_string l); clearbody str|];
  destruct ky, full_info, se, re; simpl; split; intros H; try discriminate H;
  destruct an, io, mo, np, qu, tr; simpl; repeat first [left; reflexivity | right].
Qed.

(** ** state/mod.rs: unregistered clients and nickname validity *)

(** X12: [StateInner::remove_if_unregistered] never touches a registered
    client or a free slot; an unregistered client is taken out of
    [clients] together with the entry of its case-folded nick, and nothing
    else changes: the other clients, the other nick entries and the
    channels are kept. *)
Theorem remove_if_unregistered_spec st id :
  (forall c, clients st !! id = Some c -> is_registered c = true ->
     StX.remove_if_unregistered st id = st) /\
  (clients st !! id = None -> StX.remove_if_unregistered st id = st) /\
  (forall c, clients st !! id = Some c -> is_registered c = false ->
     clients (StX.remove_if_unregistered st id) !! id = None /\
     (forall j, j <> id -> clients (StX.remove_if_unregistered st id) !! j = clients st !! j) /\
     nicks (StX.remove_if_unregistered st id) !! fold (nick c) = None /\
     (forall k, k <> fold (nick c) ->
        nicks (StX.remove_if_unregistered st id) !! k = nicks st !! k) /\
     channels (StX.remove_if_unregistered st id) = channels st).
Proof.
  unfold StX.remove_if_unregistered. split; [|split].
  - intros c Hc Hr. rewrite Hc, Hr. reflexivity.
  - intros Hc. rewrite Hc. reflexivity.
  - intros c Hc Hr. rewrite Hc, Hr. simpl.
    split; [apply lookup_delete_eq|]. split; [intros j Hj; by rewrite lookup_delete_ne|].
    split; [apply lookup_delete_eq|]. split; [intros k Hk; by rewrite lookup_delete_ne|].
    reflexivity.
Qed.

Lemma valid_nickname_chars s max_len c :
  StX.is_valid_nickname s max_len = true -> c ∈ list_ascii_of_string s ->
  StX.is_valid_nickname_char c = true.
Proof.
  destruct s as [|f rest]; [discriminate|]. simpl.
  intros H Hc. apply andb_prop in H as [H _]. apply andb_prop in H as [H _].
  apply andb_prop in H as [_ H]. apply andb_prop in H as [Hf H].
  rewrite forallb_forall in H. apply elem_of_cons in Hc as [->|Hc]; [done|].
  apply H, list_elem_of_In, Hc.
Qed.

(** X13: [is_valid_nickname] accepts from 1 to [max_len] bytes, none of which
    is a space, ',', ':', '!', '@', '#', '&', '*' or '-' (so the test of a
    leading '-' never fires), and not starting with a digit; a valid
    nickname is therefore never a valid channel name. *)
Theorem valid_nickname_shape s max_len chan_len :
  StX.is_valid_nickname s max_len = true ->
  (1 <= String.length s)%nat /\ (N.of_nat (String.length s) <= max_len)%N /\
  (forall c, c ∈ list_ascii_of_string s ->
     c ∉ [" "; ","; ":"; "!"; "@"; "#"; "&"; "*"; "-"]%char) /\
  (forall f rest, s = String f rest -> ~ (48 <= N_of_ascii f <= 57)%N) /\
  is_valid_channel_name s chan_len = false.
Proof.
  intros Hv. split; [|split; [|split; [|split]]].
  - destruct s as [|f rest]; [discriminate|]. simpl. lia.
  - destruct s as [|f rest]; [discriminate|]. simpl in Hv |- *.
    apply andb_prop in Hv as [H _]. apply andb_prop in H as [H _].
    apply andb_prop in H as [H _]. by apply N.leb_le in H.
  - intros c Hc Hbad. pose proof (valid_nickname_chars s max_len c Hv Hc) as Hok.
    repeat (apply elem_of_cons in Hbad as [->|Hbad]; [vm_compute in Hok; discriminate|]).
    set_solver.
  - intros f rest -> Hd. simpl in Hv. apply andb_prop in Hv as [_ H].
    apply negb_true_iff in H. apply andb_false_iff in H as [H|H]; apply N.leb_gt in H; lia.
  - destruct s as [|f rest]; [reflexivity|]. simpl.
    pose proof (valid_nickname_chars _ max_len f Hv ltac:(simpl; left)) as Hf.
    destruct (Ascii.eqb_spec f "#"), (Ascii.eqb_spec f "&"); subst;
      try (vm_compute in Hf; discriminate).
    rewrite andb_false_r, andb_false_l. reflexivity.
Qed.

(** X14: [StateInner::cmd_cap]: an empty parameter list panics ([params[0]]);
    CAP END does nothing and succeeds; an unknown subcommand changes
    nothing, sends nothing to others, replies ERR_INVALIDCAPCMD (410) with
    the subcommand and fails, whatever parameters follow it. *)
Theorem cmd_cap_edges cap_list cap_ls st id rest c p0 :
  StX.cmd_cap cap_list cap_ls st id [] = Panic /\
  StX.cmd_cap cap_list cap_ls st id ("END" :: rest) = Done (st, [], [], Ok tt) /\
  (clients st !! id = Some c -> p0 ∉ ["END"; "LIST"; "LS"; "REQ"] ->
     StX.cmd_cap cap_list cap_ls st id (p0 :: rest) =
       Done (st, [rb_reply st c "410" [p0]], [], Err tt)).
Proof.
  split; [reflexivity|]. split; [reflexivity|].
  intros Hc Hp. unfold StX.cmd_cap.
  destruct (String.eqb_spec p0 "END"); [subst; set_solver|].
  destruct (String.eqb_spec p0 "LIST"); [subst; set_solver|].
  destruct (String.eqb_spec p0 "LS"); [subst; set_solver|].
  destruct (String.eqb_spec p0 "REQ"); [subst; set_solver|].
  unfold client_at. rewrite Hc. reflexivity.
Qed.

(** ** Message delivery *)

Lemma deliver_members_spec st s cmd msg ids j m :
  (j, m) ∈ deliver_members st s cmd msg ids <->
  m = msg /\ j ∈ ids /\ j <> s /\
  exists c, clients st !! j = Some c /\ Cl.is_capable_of c cmd = true.
Proof.
  induction ids as [|a ids IH]; simpl.
  - split; [set_solver|]. intros (_ & H & _). set_solver.
  - destruct (Nat.eqb_spec a s) as [->|Hne].
    + rewrite IH. split.
      * intros (-> & Hin & Hj & Hc). repeat split; auto. set_solver.
      * intros (-> & Hin & Hj & Hc). apply elem_of_cons in Hin as [->|Hin]; [done|]. auto.
    + destruct (clients st !! a) as [ca|] eqn:Ha; [destruct (Cl.is_capable_of ca cmd) eqn:Hcap|].
      * rewrite elem_of_cons, IH. split.
        -- intros [[= -> ->] | (-> & Hin & Hj & Hc)].
           ++ repeat split; [set_solver|done|]. eauto.
           ++ repeat split; [set_solver|done|done].
        -- intros (-> & Hin & Hj & Hc). apply elem_of_cons in Hin as [->|Hin]; [by left|].
           right. auto.
      * rewrite IH. split.
        -- intros (-> & Hin & Hj & Hc). repeat split; [set_solver|done|done].
        -- intros (-> & Hin & Hj & c & Hc & Hcc). apply elem_of_cons in Hin as [->|Hin].
           ++ congruence.
           ++ eauto 10.
      * rewrite IH. split.
        -- intros (-> & Hin & Hj & Hc). repeat split; [set_solver|done|done].
        -- intros (-> & Hin & Hj & c & Hc & Hcc). apply elem_of_cons in Hin as [->|Hin].
           ++ congruence.
           ++ eauto 10.
Qed.

(** X15: [StateInner::send_query_or_channel_msg] (PRIVMSG, NOTICE, TAGMSG):
    when it fails it changes nothing and delivers nothing; when it
    succeeds the only change to the state is the sender's idle-time
    update.  Every line it delivers goes to an existing client capable of
    the command.  To a channel it delivers exactly to the members other
    than the sender that exist and are capable; to a nick it delivers at
    most one line, to the client the case-folded nick is bound to. *)
Theorem query_or_channel_msg_recipients st id cmd target content ct mi tm now st' rb ds r :
  send_query_or_channel_msg st id cmd target content ct mi tm now = Done (st', rb, ds, r) ->
  (r = Err tt -> st' = st /\ ds = []) /\
  (r = Ok tt -> exists c, clients st !! id = Some c /\
     st' = set_clients st (<[id := update_idle_time c now]> (clients st))) /\
  (forall j m, (j, m) ∈ ds ->
     exists c, clients st !! j = Some c /\ Cl.is_capable_of c cmd = true) /\
  (is_valid_channel_name target (channellen st) = true -> forall j,
     (exists m, (j, m) ∈ ds) <->
     (r = Ok tt /\ j <> id /\
      exists ch c, channels st !! fold target = Some ch /\ j ∈ member_ids ch /\
                   clients st !! j = Some c /\ Cl.is_capable_of c cmd = true)) /\
  (is_valid_channel_name target (channellen st) = false ->
     length ds <= 1 /\ forall j m, (j, m) ∈ ds -> nicks st !! fold target = Some j).
Proof.
  intros H. unfold send_query_or_channel_msg, client_at in H.
  destruct (clients st !! id) as [cl|] eqn:Hcl; [|discriminate]. cbn [obind] in H.
  destruct (bool_decide (content = Some "")).
  { injection H as <- <- <- <-. split; [done|]. split; [discriminate|].
    split; [set_solver|]. split; [|split; [simpl; lia|set_solver]].
    intros _ j. split; [intros [m Hm]; set_solver|intros [[=] _]]. }
  destruct (is_valid_channel_name target (channellen st)) eqn:Hv.
  - destruct (channels st !! fold target) as [ch|] eqn:Hch.
    + destruct (negb (can_talk ch id)).
      * injection H as <- <- <- <-. split; [done|]. split; [discriminate|].
        split; [set_solver|]. split; [|discriminate].
        intros _ j. split; [intros [m Hm]; set_solver|intros [[=] _]].
      * destruct (build_message cl cmd target content ct mi tm) as [echo msg].
        injection H as <- <- <- <-. split; [discriminate|]. split; [eauto|].
        split; [|split; [|discriminate]].
        -- intros j m Hm. apply deliver_members_spec in Hm as (_ & _ & _ & Hc). exact Hc.
        -- intros _ j. split.
           ++ intros [m Hm]. apply deliver_members_spec in Hm as (_ & Hin & Hj & c & Hc & Hcap).
              split; [done|]. split; [done|]. exists ch, c. auto.
           ++ intros (_ & Hj & ch' & c & Hch' & Hin & Hc & Hcap).
              injection Hch' as <-. exists msg.
              apply deliver_members_spec. eauto 10.
    + injection H as <- <- <- <-. split; [done|]. split; [discriminate|].
      split; [set_solver|]. split; [|discriminate].
      intros _ j. split; [intros [m Hm]; set_solver|intros [[=] _]].
  - unfold find_nick in H. destruct (nicks st !! fold target) as [i|] eqn:Hn.
    + unfold client_at in H. destruct (clients st !! i) as [ci|] eqn:Hci; [|discriminate].
      cbn [obind] in H. destruct (is_registered ci).
      * destruct (Cl.is_capable_of ci cmd) eqn:Hcap; simpl in H.
        -- destruct (build_message cl cmd target content ct mi tm) as [echo msg].
           injection H as <- <- <- <-. split; [discriminate|]. split; [eauto|].
           split; [|split; [discriminate|]].
           ++ intros j m Hm. apply list_elem_of_singleton in Hm. injection Hm as -> ->. eauto.
           ++ intros _. split; [simpl; lia|]. intros j m Hm.
              apply list_elem_of_singleton in Hm. injection Hm as -> ->. done.
        -- injection H as <- <- <- <-. split; [done|]. split; [discriminate|].
           split; [set_solver|]. split; [discriminate|]. split; [simpl; lia|set_solver].
      * injection H as <- <- <- <-. split; [done|]. split; [discriminate|].
        split; [set_solver|]. split; [discriminate|]. split; [simpl; lia|set_solver].
    + injection H as <- <- <- <-. split; [done|]. split; [discriminate|].
      split; [set_solver|]. split; [discriminate|]. split; [simpl; lia|set_solver].
Qed.

Lemma qcm_lines st id cmd target content ct mi tm now st' rb ds r j m :
  send_query_or_channel_msg st id cmd target content ct mi tm now = Done (st', rb, ds, r) ->
  (j, m) ∈ ds ->
  (exists c, clients st !! j = Some c /\ Cl.is_capable_of c cmd = true) /\
  (exists cl, clients st !! id = Some cl /\ m = (build_message cl cmd target content ct mi tm).2) /\
  (is_valid_channel_name target (channellen st) = true -> j <> id).
Proof.
  intros H Hm. unfold send_query_or_channel_msg, client_at in H.
  destruct (clients st !! id) as [cl|] eqn:Hcl; [|discriminate]. cbn [obind] in H.
  destruct (bool_decide (content = Some "")); [injection H as _ _ <- _; set_solver|].
  destruct (is_valid_channel_name target (channellen st)) eqn:Hv.
  - destruct (channels st !! fold target) as [ch|]; [|injection H as _ _ <- _; set_solver].
    destruct (negb (can_talk ch id)); [injection H as _ _ <- _; set_solver|].
    destruct (build_message cl cmd target content ct mi tm) as [echo msg] eqn:Hb.
    injection H as _ _ <- _.
    apply deliver_members_spec in Hm as (-> & _ & Hj & Hc).
    split; [done|]. split; [exists cl; split; [done|]; first [reflexivity | rewrite Hb; reflexivity]|done].
  - unfold find_nick in H. destruct (nicks st !! fold target) as [i|];
      [|injection H as _ _ <- _; set_solver].
    unfold client_at in H. destruct (clients st !! i) as [ci|] eqn:Hci; [|discriminate].
    cbn [obind] in H. destruct (is_registered ci); [|injection H as _ _ <- _; set_solver].
    destruct (Cl.is_capable_of ci cmd) eqn:Hcap; simpl in H; [|injection H as _ _ <- _; set_solver].
    destruct (build_message cl cmd target content ct mi tm) as [echo msg] eqn:Hb.
    injection H as _ _ <- _. apply list_elem_of_singleton in Hm. injection Hm as -> ->.
    split; [eauto|]. split; [exists cl; split; [done|]; first [reflexivity | rewrite Hb; reflexivity]|discriminate].
Qed.

(** X16: [StateInner::cmd_tagmsg]: a TAGMSG line reaches only clients that
    negotiated [message-tags], carries the target as its only parameter,
    and is never delivered back to its sender when the target is a
    channel. *)
Theorem tagmsg_recipients st id target ct mi tm now st' rb ds r :
  StX.cmd_tagmsg st id target ct mi tm now = Done (st', rb, ds, r) ->
  forall j m, (j, m) ∈ ds ->
    (exists c, clients st !! j = Some c /\ "message-tags" ∈ Cl.capabilities c) /\
    msg_command m = "TAGMSG" /\ msg_params m = [target] /\
    (is_valid_channel_name target (channellen st) = true -> j <> id).
Proof.
  unfold StX.cmd_tagmsg. intros H j m Hm.
  destruct (qcm_lines _ _ _ _ _ _ _ _ _ _ _ _ _ j m H Hm)
    as ((c & Hc & Hcap) & (cl & _ & ->) & Hne).
  split; [exists c; split; [done|]; simpl in Hcap; by apply bool_decide_eq_true in Hcap|].
  split; [reflexivity|]. split; [reflexivity|exact Hne].
Qed.

(** ** Notifications *)

Lemma notify_each_filter st from msg f (ids : list nat) :
  (forall id, id ∈ ids -> id <> from -> is_Some (clients st !! id)) ->
  notify_each st from msg f ids =
    Done (map (fun id => (id, msg))
              (filter (fun id => from_option (f id) false (clients st !! id) = true)
                      (filter (fun id => id <> from) ids))).
Proof.
  induction ids as [|a ids IH]; intros H; simpl; [reflexivity|].
  rewrite filter_cons. destruct (Nat.eqb_spec from a) as [->|Hne].
  - rewrite decide_False by congruence. apply IH. intros id Hin. apply H. set_solver.
  - rewrite decide_True by congruence.
    destruct (H a ltac:(set_solver) ltac:(congruence)) as [c Hc].
    unfold client_at. simpl. rewrite Hc. simpl.
    rewrite IH by (intros id Hin; apply H; set_solver). simpl.
    rewrite filter_cons, Hc. simpl.
    destruct (f a c); [rewrite decide_True by done | rewrite decide_False by done]; reflexivity.
Qed.

Lemma filter_eq_filter {P : nat -> Prop} `{!forall x, Decision (P x)} (r : nat) (l : list nat) :
  filter (fun id => id = r) (filter P l) =
    if decide (P r) then filter (fun id => id = r) l else [].
Proof.
  induction l as [|a l IH]; [by destruct (decide (P r))|].
  rewrite !filter_cons. destruct (decide (P a)) as [Ha|Ha].
  - rewrite filter_cons. destruct (decide (a = r)) as [->|Hne].
    + rewrite decide_True by done. rewrite IH, decide_True by done. reflexivity.
    + rewrite IH. reflexivity.
  - rewrite IH. destruct (decide (a = r)) as [->|Hne]; [|reflexivity].
    by destruct (decide (P r)).
Qed.

(** X17: [StateInner::send_notification] with any filter, on a state where
    every channel member is a client: each client other than the sender
    that shares a channel with it gets exactly one copy of the line when
    the filter accepts it and none otherwise; the sender and the clients
    sharing no channel with it get nothing. *)
Theorem send_notification_recipients st from msg f :
  members_are_clients st ->
  exists ds, send_notification st from msg f = Done ds /\
    (forall r c, r <> from -> shares st from r -> clients st !! r = Some c ->
       filter (fun d : Delivery => d.1 = r) ds = if f r c then [(r, msg)] else []) /\
    (forall r, r = from \/ ~ shares st from r -> filter (fun d : Delivery => d.1 = r) ds = []).
Proof.
  intros Hinv. unfold send_notification. rewrite notify_each_filter.
  2:{ intros id Hin Hne. apply elem_of_elements, elem_of_noticed in Hin as [->|Hsh]; [done|].
      destruct Hsh as (name & ch & Hl & _ & Hid). by apply (Hinv name ch). }
  eexists. split; [reflexivity|].
  set (ids := elements (noticed st from)).
  assert (Hnd : NoDup ids) by apply NoDup_elements.
  split.
  - intros r c Hne Hsh Hc. rewrite filter_deliveries, filter_eq_filter.
    rewrite (filter_eq_nodup_in r from ids Hnd); [| |done].
    + rewrite Hc. simpl. by destruct (f r c).
    + apply elem_of_elements, elem_of_noticed. by right.
  - intros r Hr. rewrite filter_deliveries, filter_eq_filter, filter_eq_not_in.
    + by destruct (decide _).
    + destruct (decide (r = from)) as [->|Hne]; [by right|]. left. intros Hin.
      destruct Hr as [Hr|Hr]; [done|].
      apply elem_of_elements, elem_of_noticed in Hin as [->|]; auto.
Qed.

(** ** NAMES *)

Lemma name_entries_spec all_symbols st caps (ms : list (nat * MemberModes)) :
  (forall m, m ∈ map fst ms -> is_Some (clients st !! m)) ->
  exists es, StX.name_entries all_symbols st caps ms = Done es /\
    Forall2 (fun e mm => exists cm pre, clients st !! mm.1 = Some cm /\
               e = pre ++ (if bool_decide ("userhost-in-names" ∈ caps)
                           then full_name cm else nick cm)) es ms.
Proof.
  induction ms as [|[m md] ms IH]; intros H; simpl.
  - exists []. split; [reflexivity|constructor].
  - destruct (H m ltac:(set_solver)) as [cm Hcm].
    destruct IH as (es & Hes & Hf); [intros x Hx; apply H; set_solver|].
    unfold StX.name_entry, client_at. simpl. rewrite Hcm. simpl. rewrite Hes. simpl.
    eexists. split; [reflexivity|]. constructor; [|exact Hf].
    eexists cm, _. split; [done|reflexivity].
Qed.

(** X18: [StateInner::send_names]: an unknown channel, or a secret channel the
    client is not in, gives no reply at all; otherwise the reply ends with
    RPL_ENDOFNAMES (366), preceded, when the channel has members, by one
    RPL_NAMREPLY (353) that lists one entry per member in member order,
    each ending with the member's nick (its full name with
    [userhost-in-names]). *)
Theorem send_names_replies all_symbols st id c name :
  (channels st !! fold name = None -> StX.send_names all_symbols st id c name = Done []) /\
  (forall ch, channels st !! fold name = Some ch -> secret ch = true -> id ∉ member_ids ch ->
     StX.send_names all_symbols st id c name = Done []) /\
  (forall ch me, channels st !! fold name = Some ch ->
     (secret ch = false \/ id ∈ member_ids ch) -> clients st !! id = Some me ->
     (forall m, m ∈ member_ids ch -> is_Some (clients st !! m)) ->
     exists es, StX.send_names all_symbols st id c name =
       Done (match members ch with
             | [] => [rb_reply st c "366" [name]]
             | _ => [rb_reply st c "353" [ChanX.chan_symbol ch; name; String.concat " " es];
                     rb_reply st c "366" [name]]
             end) /\
     Forall2 (fun e mm => exists cm pre, clients st !! mm.1 = Some cm /\
                e = pre ++ (if bool_decide ("userhost-in-names" ∈ Cl.capabilities me)
                            then full_name cm else nick cm)) es (members ch)).
Proof.
  unfold StX.send_names. split; [|split].
  - intros H. rewrite H. reflexivity.
  - intros ch H Hs Hn. rewrite H, Hs. simpl.
    destruct (has_member id ch) eqn:E; [apply has_member_spec in E; contradiction|].
    reflexivity.
  - intros ch me H Hv Hme Hall. rewrite H.
    assert (Hvis : secret ch && negb (has_member id ch) = false).
    { destruct Hv as [->|Hin]; [reflexivity|].
      apply has_member_spec in Hin. rewrite Hin. apply andb_false_r. }
    rewrite Hvis.
    destruct (name_entries_spec all_symbols st (Cl.capabilities me) (members ch) Hall)
      as (es & Hes & Hf).
    exists es. split; [|exact Hf].
    clear Hf. revert Hes. destruct (members ch) as [|mm ms]; intros Hes; [reflexivity|].
    unfold client_at. rewrite Hme. cbn [obind]. rewrite Hes. reflexivity.
Qed.

(** ** The checks of [handle_message] *)

Lemma points_of_range cmd : (1 <= points_of cmd <= 6)%N.
Proof. destruct cmd; simpl; lia. Qed.

(** X19: [StateInner::handle_message] before dispatch: a message from an
    unknown id is dropped with [Err(())]; a message with more than 4094
    bytes of tags costs 3 points and gets ERR_INPUTTOOLONG (417) whatever
    its command; a message that fails any other check changes nothing,
    pushes nothing to other clients, gets exactly one reply and costs 1 to
    3 points; and whatever the handlers do, a successful result is between
    1 and 12 points. *)
Theorem handle_message_checks has_enough_params can_issue_command apply_command
    other_handlers id msg st :
  (clients st !! id = None ->
     handle_message has_enough_params can_issue_command apply_command other_handlers id msg st
     = Done (st, [], [], Err tt)) /\
  (forall c, clients st !! id = Some c ->
     (MAX_TAG_DATA_LENGTH < N.of_nat (String.length (tags msg)))%N ->
     handle_message has_enough_params can_issue_command apply_command other_handlers id msg st
     = Done (st, [rb_reply st c "417" []], [], Ok 3%N)) /\
  (forall c, clients st !! id = Some c ->
     (exists rep k,
        handle_message has_enough_params can_issue_command apply_command other_handlers id msg st
        = Done (st, [rep], [], Ok k) /\ (1 <= k <= 3)%N) \/
     (exists cmd, (N.of_nat (String.length (tags msg)) <= MAX_TAG_DATA_LENGTH)%N /\
        command msg = Ok cmd /\ Cl.is_capable_of c cmd = true /\
        has_enough_params msg = true /\ can_issue_command c cmd (param msg 0) = true)) /\
  (forall st' rb sent p,
     handle_message has_enough_params can_issue_command apply_command other_handlers id msg st
     = Done (st', rb, sent, Ok p) -> (1 <= p <= 12)%N).
Proof.
  unfold handle_message. split; [|split; [|split]].
  - intros H. rewrite H. reflexivity.
  - intros c H Ht. rewrite H. apply N.ltb_lt in Ht. rewrite Ht. reflexivity.
  - intros c H. rewrite H.
    destruct (MAX_TAG_DATA_LENGTH <? _)%N eqn:Ht; [left; eexists _, _; split; [reflexivity|lia]|].
    apply N.ltb_ge in Ht.
    destruct (command msg) as [cmd|u] eqn:Hcmd; [|left; eexists _, _; split; [reflexivity|lia]].
    destruct (Cl.is_capable_of c cmd) eqn:Hcap; [|left; eexists _, _; split; [reflexivity|lia]].
    destruct (has_enough_params msg) eqn:Hp; [|left; eexists _, _; split; [reflexivity|lia]].
    destruct (can_issue_command c cmd (param msg 0)) eqn:Hi;
      [|left; eexists _, _; split; [reflexivity|lia]].
    right. exists cmd. auto.
  - intros st' rb sent p.
    destruct (clients st !! id) as [c|]; [|discriminate].
    destruct (MAX_TAG_DATA_LENGTH <? _)%N; [intros [= _ _ _ <-]; lia|].
    destruct (command msg) as [cmd|u]; [|intros [= _ _ _ <-]; lia].
    destruct (Cl.is_capable_of c cmd); [|intros [= _ _ _ <-]; lia].
    destruct (has_enough_params msg); [|intros [= _ _ _ <-]; lia].
    destruct (can_issue_command c cmd (param msg 0)); [|intros [= _ _ _ <-]; lia].
    simpl. destruct (handle_message_inner other_handlers id msg st)
      as [[[[st1 rb1] sent1] r1]|]; [|discriminate]. simpl.
    destruct (clients st1 !! id); [|discriminate].
    pose proof (points_of_range cmd).
    destruct r1; intros [= _ _ _ <-]; [lia|].
    unfold saturating_mul_u32, u32_max. rewrite N.min_l; lia.
Qed.

(** ** SETNAME *)

(** X20: [StateInner::cmd_setname]: an empty real name, or one longer than
    [namelen], is refused with a FAIL reply, changing nothing and sending
    nothing; otherwise only the issuer's real name changes, the issuer
    gets its SETNAME echo, and on a state where every channel member is a
    client each other client sharing a channel with it gets exactly one
    SETNAME line, whatever its capabilities, and nobody else any. *)
Theorem cmd_setname_effects st id real c :
  members_are_clients st -> clients st !! id = Some c ->
  (real = "" \/ (namelen st < N.of_nat (String.length real))%N ->
     cmd_setname st id real =
       Done (st, [mkMsg [] "" "FAIL" ["SETNAME"; "INVALID_REALNAME"]], [], Err tt)) /\
  (real <> "" -> (N.of_nat (String.length real) <= namelen st)%N ->
     let line := mkMsg [] (full_name c) "SETNAME" [real] in
     exists sent,
       cmd_setname st id real =
         Done (set_clients st (<[id := set_real c real]> (clients st)), [line], sent, Ok tt) /\
       (forall r, r <> id -> shares st id r ->
          filter (fun d : Delivery => d.1 = r) sent = [(r, line)]) /\
       (forall r, r = id \/ ~ shares st id r ->
          filter (fun d : Delivery => d.1 = r) sent = [])).
Proof.
  intros Hinv Hc. unfold cmd_setname. split.
  - intros [->|Hl]; [reflexivity|].
    apply N.ltb_lt in Hl. rewrite Hl, orb_true_r. reflexivity.
  - intros Hne Hl. cbv zeta.
    destruct (String.eqb_spec real "") as [|_]; [contradiction|].
    apply N.ltb_ge in Hl. rewrite Hl. simpl.
    unfold client_at. rewrite Hc. cbn [obind].
    unfold send_notification. rewrite noticed_set_clients, notify_each_all.
    2:{ intros j Hin Hj. apply elem_of_elements, elem_of_noticed in Hin as [->|Hsh]; [done|].
        destruct Hsh as (name & ch & Hch & _ & Hm). simpl.
        rewrite lookup_insert_ne by congruence. by apply (Hinv name ch). }
    cbn [obind]. eexists. split; [reflexivity|].
    set (ids := elements (noticed st id)).
    assert (Hnd : NoDup ids) by apply NoDup_elements.
    split.
    + intros r Hr Hsh. rewrite filter_deliveries, (filter_eq_nodup_in r id ids Hnd);
        [reflexivity| |done].
      apply elem_of_elements, elem_of_noticed. by right.
    + intros r Hr. rewrite filter_deliveries, filter_eq_not_in; [reflexivity|].
      destruct (decide (r = id)) as [->|Hri]; [by right|]. left. intros Hin.
      destruct Hr as [Hr|Hr]; [done|].
      apply elem_of_elements, elem_of_noticed in Hin as [->|]; auto.
Qed.

(** ** What [apply_mode_change] reports *)

Lemma set_operator_of_nick_applied nick_of p v ms ms' b :
  set_operator_of_nick nick_of p v ms = (ms', Some b) -> (b = true <-> ms' <> ms).
Proof.
  induction ms as [|[m md] ms IH] in ms', b |- *; simpl; [discriminate|].
  destruct (String.eqb (nick_of m) p).
  - intros [= <- <-]. destruct md as [cr op vo]; simpl.
    destruct op, v; simpl; split; congruence.
  - destruct (set_operator_of_nick nick_of p v ms) as [rest' [b'|]] eqn:E; [|discriminate].
    intros [= <- <-]. rewrite (IH _ _ eq_refl). split; congruence.
Qed.

Lemma hs_insert_applied x s : (hs_insert x s).2 = true <-> (hs_insert x s).1 <> s.
Proof.
  unfold hs_insert. simpl. destruct (decide (x ∈ s)) as [Hx|Hx].
  - rewrite bool_decide_eq_true_2 by done. simpl.
    assert ({[x]} ∪ s = s) as -> by (apply leibniz_equiv; set_solver). split; congruence.
  - rewrite bool_decide_eq_false_2 by done. simpl. split; [|done].
    intros _ Heq. apply Hx. rewrite <- Heq. set_solver.
Qed.

Lemma hs_remove_applied x s : (hs_remove x s).2 = true <-> (hs_remove x s).1 <> s.
Proof.
  unfold hs_remove. simpl. destruct (decide (x ∈ s)) as [Hx|Hx].
  - rewrite bool_decide_eq_true_2 by done. split; [|done].
    intros _ Heq. assert (x ∈ s ∖ {[x]}) by (rewrite Heq; done). set_solver.
  - rewrite bool_decide_eq_false_2 by done.
    assert (s ∖ {[x]} = s) as -> by (apply leibniz_equiv; set_solver). split; congruence.
Qed.

(** X21: [Channel::apply_mode_change] returns [Ok(true)] exactly when it
    changed the channel and [Ok(false)] exactly when it left it as it was,
    for every mode change; when it returns an error it changes nothing. *)
Theorem apply_mode_change_applied nick_of c ch :
  match apply_mode_change nick_of c ch with
  | (ch', Ok b) => b = true <-> ch' <> ch
  | (ch', Err _) => ch' = ch
  end.
Proof.
  destruct ch as [ms tp ul ky bm em im an io mo np qu se re tr].
  destruct c; simpl;
    unfold set_members, set_user_limit, set_key, set_ban_mask, set_exception_mask,
      set_invitation_mask, set_anonymous, set_invite_only, set_moderated,
      set_no_privmsg_from_outside, set_quiet, set_secret, set_topic_restricted; simpl;
    try (match goal with |- context [Bool.eqb ?x ?y] => destruct x, y end;
         simpl; split; congruence);
    try (split; congruence).
  - (* Key *)
    destruct v; destruct ky as [k0|]; simpl; try reflexivity; try (split; congruence).
    destruct (String.eqb_spec k k0); simpl; split; congruence.
  - (* UserLimit *)
    destruct l as [s|]; simpl.
    + destruct (parse_usize s) as [limit|]; simpl; [|split; congruence].
      destruct ul as [l|]; [destruct (N.eqb_spec l limit); subst|]; simpl; split; congruence.
    + destruct ul; simpl; split; congruence.
  - (* ChangeBan *)
    destruct v; [pose proof (hs_insert_applied p bm) as H; destruct (hs_insert p bm) as [s b]
                |pose proof (hs_remove_applied p bm) as H; destruct (hs_remove p bm) as [s b]];
      simpl in *; rewrite H; split; congruence.
  - destruct v; [pose proof (hs_insert_applied p em) as H; destruct (hs_insert p em) as [s b]
                |pose proof (hs_remove_applied p em) as H; destruct (hs_remove p em) as [s b]];
      simpl in *; rewrite H; split; congruence.
  - destruct v; [pose proof (hs_insert_applied p im) as H; destruct (hs_insert p im) as [s b]
                |pose proof (hs_remove_applied p im) as H; destruct (hs_remove p im) as [s b]];
      simpl in *; rewrite H; split; congruence.
  - destruct (set_operator_of_nick nick_of p v ms) as [ms' [b|]] eqn:E; [|reflexivity].
    simpl. rewrite (set_operator_of_nick_applied _ _ _ _ _ _ E). split; congruence.
  - destruct (set_operator_of_nick nick_of p v ms) as [ms' [b|]] eqn:E; [|reflexivity].
    simpl. rewrite (set_operator_of_nick_applied _ _ _ _ _ _ E). split; congruence.
Qed.

(** ** Witnesses: each theorem above with a hypothesis, at a concrete input *)

Lemma decode_channel_mode_roundtrip_witness :
  decode_channel_mode true "k"%char ["secret"] = (Ok (Key true "secret"), []) /\
  (symbol (Key true "secret") = Some "k"%char /\
   ["secret"] = (match CMC.param (Key true "secret") with Some p => [p] | None => [] end ++ [])%list /\
   CMC.value (Key true "secret") =
     (if Ascii.eqb "k"%char "l"%char then match ["secret"] with [] => false | _ => true end
      else true)).
Proof.
  assert (H : decode_channel_mode true "k"%char ["secret"] = (Ok (Key true "secret"), []))
    by reflexivity.
  split; [exact H|]. exact (decode_channel_mode_roundtrip true "k"%char ["secret"] _ _ H).
Defined.

Lemma change_voice_sets_operator_witness :
  exists ch' r,
    apply_mode_change (fun i => match i with 0 => "alice" | 1 => "bob" | _ => "carol" end)
      (ChangeVoice true "bob") (Samples.chan_of [0; 1; 2]) = (ch', r) /\
    member_ids ch' = member_ids (Samples.chan_of [0; 1; 2]) /\
    map (fun m => voice m.2) (members ch') =
      map (fun m => voice m.2) (members (Samples.chan_of [0; 1; 2])) /\
    (r = Err ERR_USERNOTINCHANNEL <->
       forall m, m ∈ member_ids (Samples.chan_of [0; 1; 2]) ->
         (fun i => match i with 0 => "alice" | 1 => "bob" | _ => "carol" end) m <> "bob") /\
    (r = Err ERR_USERNOTINCHANNEL -> ch' = Samples.chan_of [0; 1; 2]) /\
    (r <> Err ERR_USERNOTINCHANNEL ->
       exists m md, (m, md) ∈ members ch' /\
         (fun i => match i with 0 => "alice" | 1 => "bob" | _ => "carol" end) m = "bob" /\
         operator md = true /\ (true = true -> ChanX.mm_symbol md = Some "@"%char)).
Proof.
  eexists _, _. split; [reflexivity|].
  apply (change_voice_sets_operator
           (fun i => match i with 0 => "alice" | 1 => "bob" | _ => "carol" end)
           true "bob" (Samples.chan_of [0; 1; 2])).
  reflexivity.
Defined.

Lemma modes_roundtrip_witness :
  let ch := mkChannel [] None (Some 10%N) (Some "k") ∅ ∅ ∅ true false false true false
              false false true in
  reop ch = false /\ secret ch = false /\
  (forall l, user_limit ch = Some l -> (l <= usize_max)%N) /\
  (let m := fst (ChanX.modes ch true) in
   let items := channel_items (String.length m) (channel_query_new m (snd (ChanX.modes ch true))) in
   let res := ChanX.apply_changes (fun _ => "") (ChanX.ok_changes items) default_channel in
   Forall (fun r => exists c, r = Ok c) items /\
   Forall (fun r => r = Ok true) res.2 /\
   ChanX.mode_fields res.1 = ChanX.mode_fields ch).
Proof.
  intros ch.
  assert (Hl : forall l, user_limit ch = Some l -> (l <= usize_max)%N).
  { intros l [= <-]. unfold usize_max. lia. }
  split; [reflexivity|]. split; [reflexivity|]. split; [exact Hl|].
  exact (modes_roundtrip (fun _ => "") ch eq_refl eq_refl Hl).
Defined.

Lemma valid_nickname_shape_witness :
  StX.is_valid_nickname "alice" 9 = true /\
  ((1 <= String.length "alice")%nat /\ (N.of_nat (String.length "alice") <= 9)%N /\
   (forall c, c ∈ list_ascii_of_string "alice" ->
      c ∉ [" "; ","; ":"; "!"; "@"; "#"; "&"; "*"; "-"]%char) /\
   (forall f rest, "alice" = String f rest -> ~ (48 <= N_of_ascii f <= 57)%N) /\
   is_valid_channel_name "alice" 50 = false).
Proof.
  assert (H : StX.is_valid_nickname "alice" 9 = true) by reflexivity.
  split; [exact H|]. exact (valid_nickname_shape "alice" 9 50 H).
Defined.

Lemma query_or_channel_msg_recipients_witness :
  exists st' rb ds r,
    send_query_or_channel_msg Samples.net 0 PrivMsg "#room" (Some "hi") "" "m1" "t1" 7
      = Done (st', rb, ds, r) /\
    r = Ok tt /\ map fst ds = [1; 2] /\
    ((r = Err tt -> st' = Samples.net /\ ds = []) /\
     (r = Ok tt -> exists c, clients Samples.net !! 0 = Some c /\
        st' = set_clients Samples.net (<[0 := update_idle_time c 7]> (clients Samples.net))) /\
     (forall j m, (j, m) ∈ ds ->
        exists c, clients Samples.net !! j = Some c /\ Cl.is_capable_of c PrivMsg = true) /\
     (is_valid_channel_name "#room" (channellen Samples.net) = true -> forall j,
        (exists m, (j, m) ∈ ds) <->
        (r = Ok tt /\ j <> 0 /\
         exists ch c, channels Samples.net !! fold "#room" = Some ch /\ j ∈ member_ids ch /\
                      clients Samples.net !! j = Some c /\ Cl.is_capable_of c PrivMsg = true)) /\
     (is_valid_channel_name "#room" (channellen Samples.net) = false ->
        length ds <= 1 /\ forall j m, (j, m) ∈ ds -> nicks Samples.net !! fold "#room" = Some j)).
Proof.
  destruct (send_query_or_channel_msg Samples.net 0 PrivMsg "#room" (Some "hi") "" "m1" "t1" 7)
    as [[[[st' rb] ds] r]|] eqn:E; [|vm_compute in E; discriminate].
  exists st', rb, ds, r. split; [reflexivity|].
  split; [vm_compute in E; injection E as _ _ _ <-; reflexivity|].
  split; [vm_compute in E; injection E as _ _ <- _; reflexivity|].
  exact (query_or_channel_msg_recipients _ _ _ _ _ _ _ _ _ _ _ _ _ E).
Defined.

Lemma tagmsg_recipients_witness :
  exists st' rb ds r,
    StX.cmd_tagmsg Samples.tags_net 0 "#room" "" "m1" "t1" 7 = Done (st', rb, ds, r) /\
    map fst ds = [1] /\
    (forall j m, (j, m) ∈ ds ->
       (exists c, clients Samples.tags_net !! j = Some c /\ "message-tags" ∈ Cl.capabilities c) /\
       msg_command m = "TAGMSG" /\ msg_params m = ["#room"] /\
       (is_valid_channel_name "#room" (channellen Samples.tags_net) = true -> j <> 0)).
Proof.
  destruct (StX.cmd_tagmsg Samples.tags_net 0 "#room" "" "m1" "t1" 7)
    as [[[[st' rb] ds] r]|] eqn:E; [|vm_compute in E; discriminate].
  exists st', rb, ds, r. split; [reflexivity|].
  split; [vm_compute in E; injection E as _ _ <- _; reflexivity|].
  exact (tagmsg_recipients _ _ _ _ _ _ _ _ _ _ _ E).
Defined.

Lemma send_notification_recipients_witness :
  members_are_clients Samples.net /\
  exists ds, send_notification Samples.net 0 (mkMsg [] "alice" "AWAY" [])
               (fun _ c => bool_decide ("away-notify" ∈ Cl.capabilities c)) = Done ds /\
    (forall r c, r <> 0 -> shares Samples.net 0 r -> clients Samples.net !! r = Some c ->
       filter (fun d : Delivery => d.1 = r) ds =
         if bool_decide ("away-notify" ∈ Cl.capabilities c)
         then [(r, mkMsg [] "alice" "AWAY" [])] else []) /\
    (forall r, r = 0 \/ ~ shares Samples.net 0 r -> filter (fun d : Delivery => d.1 = r) ds = []).
Proof.
  assert (Hinv : members_are_clients Samples.net)
    by (apply members_are_clientsb_spec; vm_compute; reflexivity).
  split; [exact Hinv|].
  exact (send_notification_recipients Samples.net 0 (mkMsg [] "alice" "AWAY" [])
           (fun _ c => bool_decide ("away-notify" ∈ Cl.capabilities c)) Hinv).
Defined.

Lemma cmd_setname_effects_witness :
  members_are_clients Samples.net /\ clients Samples.net !! 0 = Some Samples.alice /\
  (("Al" = "" \/ (namelen Samples.net < N.of_nat (String.length "Al"))%N ->
     cmd_setname Samples.net 0 "Al" =
       Done (Samples.net, [mkMsg [] "" "FAIL" ["SETNAME"; "INVALID_REALNAME"]], [], Err tt)) /\
   ("Al" <> "" -> (N.of_nat (String.length "Al") <= namelen Samples.net)%N ->
     let line := mkMsg [] (full_name Samples.alice) "SETNAME" ["Al"] in
     exists sent,
       cmd_setname Samples.net 0 "Al" =
         Done (set_clients Samples.net (<[0 := set_real Samples.alice "Al"]> (clients Samples.net)),
               [line], sent, Ok tt) /\
       (forall r, r <> 0 -> shares Samples.net 0 r ->
          filter (fun d : Delivery => d.1 = r) sent = [(r, line)]) /\
       (forall r, r = 0 \/ ~ shares Samples.net 0 r ->
          filter (fun d : Delivery => d.1 = r) sent = []))).
Proof.
  assert (Hinv : members_are_clients Samples.net)
    by (apply members_are_clientsb_spec; vm_compute; reflexivity).
  split; [exact Hinv|]. split; [reflexivity|].
  exact (cmd_setname_effects Samples.net 0 "Al" Samples.alice Hinv eq_refl).
Defined.
